(** * Streaming results from a RAG chain: the how-to notebook

    A shallow embedding of the code cells of
    [docs/docs/how_to/qa_streaming.ipynb] and of the library objects they
    call, with the properties of the consumer loops. *)

From stdpp Require Import gmap strings list fin_maps.

Set Default Proof Using "Type".

Local Open Scope string_scope.

(** ** Python values and exceptions *)

(** A raised exception: its class and its message. *)
Record exn := Exn { exn_class : string; exn_msg : string }.

Definition KeyError (k : string) : exn := Exn "KeyError" k.
(** [getpass] raises a bare [EOFError], without a message. *)
Definition EOFError : exn := Exn "EOFError" "".
Definition ValueError (msg : string) : exn := Exn "ValueError" msg.

(** [Document(page_content=..., metadata={...})]. *)
Record Document := { page_content : string; metadata : gmap string string }.

(** The values the notebook stores in its dicts: [None], a [str], a list of
    documents, a list of [(role, text)] tuples. *)
Inductive value :=
| VNone
| VStr (s : string)
| VDocs (ds : list Document)
| VMessages (ms : list (string * string)).

(** A streamed chunk, and the input of a chain, is a dict from key to
    value. *)
Abbreviation Chunk := (gmap string value).

(** [bool(v)]: [None], the empty string and the empty list are falsy. *)
Definition truthy (v : value) : bool :=
  match v with
  | VNone => false
  | VStr s => negb (String.eqb s "")
  | VDocs ds => negb (bool_decide (ds = []))
  | VMessages ms => negb (bool_decide (ms = []))
  end.

(** The text has a NUL byte. *)
Fixpoint has_nul (s : string) : bool :=
  match s with
  | "" => false
  | String a s' => Ascii.eqb a Ascii.zero || has_nul s'
  end.

(** The text has an equals sign. *)
Fixpoint has_equals (s : string) : bool :=
  match s with
  | "" => false
  | String a s' => Ascii.eqb a (Ascii.ascii_of_nat 61) || has_equals s'
  end.

(** The newline that [print] appends by default. *)
Definition nl : string := String (Ascii.ascii_of_nat 10) "".

(** [sep.join(parts)]. *)
Fixpoint join (sep : string) (parts : list string) : string :=
  match parts with
  | [] => ""
  | [p] => p
  | p :: ps => p +:+ sep +:+ join sep ps
  end.

(** [d.get(k)]: the value under [k], [None] when the key is absent. *)
Definition get (k : string) (d : Chunk) : value :=
  match d !! k with
  | Some v => v
  | None => VNone
  end.

(** ** Streams

    What a generator hands to a [for] loop: the items it yields, then
    either exhaustion or a raised exception. *)

Record Stream (A : Type) := { items : list A; failure : option exn }.
Arguments items {A} _.
Arguments failure {A} _.

Definition yield {A} (x : A) (s : Stream A) : Stream A :=
  {| items := x :: items s; failure := failure s |}.

Definition exhausted {A} : Stream A := {| items := []; failure := None |}.

Definition raising {A} (e : exn) : Stream A :=
  {| items := []; failure := Some e |}.

(** ** Streamed events *)

Record AIMessageChunk := { content : string }.

(** The [data] payload: each of its keys may be absent. *)
Record EventData := {
  input : option Chunk;
  output : option Chunk;
  chunk : option AIMessageChunk
}.

Record StreamEvent := {
  event : string;
  name : string;
  run_id : string;
  tags : list string;
  event_metadata : gmap string string;
  data : EventData
}.

(** ** The interpreter state and the monad of a code cell

    A cell runs against the process environment ([os.environ]), the lines
    typed at the terminal, what has been written to standard output (one
    entry per [print] call) and the outside world of the library calls. *)

Section Interpreter.

Context {W : Type}.

Record State := {
  environ : gmap string string;
  tty : list string;
  stdout : list string;
  world : W
}.

Definition io (A : Type) : Type := State -> State * (exn + A).

Definition ret {A} (a : A) : io A := fun st => (st, inr a).

Definition raise {A} (e : exn) : io A := fun st => (st, inl e).

Definition bind {A B} (k : A -> io B) (m : io A) : io B :=
  fun st =>
    match m st with
    | (st', inl e) => (st', inl e)
    | (st', inr a) => k a st'
    end.

#[export] Instance io_ret : MRet io := @ret.
#[export] Instance io_bind : MBind io := @bind.

(** [print(s, end=end_)]. *)
Definition print (s end_ : string) : io unit :=
  fun st =>
    ({| environ := environ st; tty := tty st;
        stdout := stdout st ++ [s +:+ end_]; world := world st |}, inr tt).

(** [os.environ[k] = v], on POSIX: the name and the value go through
    [putenv], which refuses a NUL byte in either and an empty name or one
    with an equals sign; only then is the variable assigned. *)
Definition environ_setitem (k v : string) : io unit :=
  fun st =>
    if has_nul k || has_nul v
    then (st, inl (ValueError "embedded null byte"))
    else if String.eqb k "" || has_equals k
    then (st, inl (ValueError "illegal environment variable name"))
    else
      ({| environ := <[k := v]> (environ st); tty := tty st;
          stdout := stdout st; world := world st |}, inr tt).

(** [getpass.getpass()]: the next line typed at the terminal. *)
Definition getpass : io string :=
  fun st =>
    match tty st with
    | [] => (st, inl EOFError)
    | line :: rest =>
        ({| environ := environ st; tty := rest;
            stdout := stdout st; world := world st |}, inr line)
    end.

(** A call into the library: it may read the environment and act on the
    outside world, and returns or raises. It does not write to the
    standard output of the notebook. *)
Definition ext (A : Type) : Type := gmap string string -> W -> W * (exn + A).

Definition ext_ret {A} (a : A) : ext A := fun _ w => (w, inr a).

Definition ext_bind {A B} (k : A -> ext B) (m : ext A) : ext B :=
  fun env w =>
    match m env w with
    | (w', inl e) => (w', inl e)
    | (w', inr a) => k a env w'
    end.

#[export] Instance ext_mret : MRet ext := @ext_ret.
#[export] Instance ext_mbind : MBind ext := @ext_bind.

(** The state with the outside world as a library call left it. *)
Definition with_world (w : W) (st : State) : State :=
  {| environ := environ st; tty := tty st; stdout := stdout st; world := w |}.

Definition call {A} (f : ext A) : io A :=
  fun st =>
    let '(w, r) := f (environ st) (world st) in
    (with_world w st, r).

(** A generator of the library: run against the environment and the
    outside world, it leaves a stream. *)
Definition gen (A : Type) : Type := gmap string string -> W -> W * Stream A.

Fixpoint for_each {A} (body : A -> io unit) (xs : list A) : io unit :=
  match xs with
  | [] => ret tt
  | x :: xs' => body x;; for_each body xs'
  end.

(** The loop over a stream: the body on every item, then the exception of
    the stream if it ended with one. *)
Definition consume {A} (s : Stream A) (body : A -> io unit) : io unit :=
  for_each body (items s);;
  match failure s with
  | Some e => raise e
  | None => ret tt
  end.

(** [for x in g: body]. The generator is run to its end before the body
    sees its first item; as the library writes nothing to standard output,
    what the loop writes and how it ends do not depend on that. When the
    body raises, Python stops pulling the generator: the outside world is
    then at most what is recorded here, and nothing below is stated about
    it in that case. *)
Definition for_in {A} (g : gen A) (body : A -> io unit) : io unit :=
  fun st =>
    let '(w, s) := g (environ st) (world st) in
    consume s body (with_world w st).

(** [async for x in g: body], run to completion. *)
Definition async_for_in {A} (g : gen A) (body : A -> io unit) : io unit :=
  for_in g body.

(** [d["chunk"]] on the data payload. *)
Definition getitem_chunk (d : EventData) : io AIMessageChunk :=
  match chunk d with
  | Some c => ret c
  | None => raise (KeyError "chunk")
  end.

(** ** Chains, as the cells use them *)

Record Runnable (O : Type) := { stream : Chunk -> gen O }.

Record EventRunnable := {
  astream_events : Chunk -> string -> gen StreamEvent
}.

Record Embeddings (Vector : Type) := {
  embed_documents : list string -> ext (list Vector);
  embed_query : string -> ext Vector
}.

Record ChatModel := {
  llm_stream : list (string * string) -> gen AIMessageChunk
}.

Record VectorStore (Vector : Type) := {
  embedding_function : Embeddings Vector;
  entries : list (Document * Vector)
}.

(** ** Observing a run *)

(** The state after [out] more writes to standard output. *)
Definition emit (out : list string) (st : State) : State :=
  {| environ := environ st; tty := tty st;
     stdout := stdout st ++ out; world := world st |}.

(** What a computation adds to standard output. *)
Definition written {A} (m : io A) (st : State) : list string :=
  drop (length (stdout st)) (stdout (m st).1).

End Interpreter.

Arguments stream {W O} _ _ _ _.
Arguments astream_events {W} _ _ _ _ _.
Arguments embed_documents {W Vector} _ _ _ _.
Arguments embed_query {W Vector} _ _ _ _.
Arguments embedding_function {W Vector} _.
Arguments entries {W Vector} _.

(** How a loop over a stream ends. *)
Definition outcome {A} (s : Stream A) : exn + unit :=
  match failure s with
  | Some e => inl e
  | None => inr tt
  end.

(** A written entry without its last character, the separator. *)
Fixpoint fragment (w : string) : string :=
  match w with
  | "" => ""
  | String a w' =>
      match w' with
      | "" => ""
      | _ => String a (fragment w')
      end
  end.

(** The concatenation of a list of texts. *)
Definition text (ws : list string) : string := foldr String.append "" ws.

(** ** The library

    What the notebook takes from outside: how the library prints its own
    objects, and the services its objects reach. *)

Class Library (W : Type) := {
  Vector : Type;
  (** [repr] of a string, of a document, of a chunk, of an event *)
  repr_str : string -> string;
  repr_doc : Document -> string;
  repr_chunk : Chunk -> string;
  repr_event : StreamEvent -> string;
  (** fetching a page and keeping the text of the given classes *)
  scrape : string -> list string -> @ext W string;
  (** cutting a text into pieces of a given size and overlap *)
  split_text : nat -> nat -> string -> list string;
  (** the positions of the nearest stored vectors, best first *)
  nearest : Vector -> list Vector -> list nat;
  (** the retrieved documents as the text of the prompt's context *)
  format_documents : list Document -> string;
  (** the constructors of the two clients; they need the credential *)
  ChatOpenAI : @ext W (@ChatModel W);
  OpenAIEmbeddings : @ext W (@Embeddings W Vector)
}.

Section Cells.

Context {W : Type} `{lib : !Library W}.

#[local] Abbreviation State := (@State W).
#[local] Abbreviation io := (@io W).
#[local] Abbreviation ext := (@ext W).
#[local] Abbreviation gen := (@gen W).
#[local] Abbreviation Runnable := (@Runnable W).
#[local] Abbreviation EventRunnable := (@EventRunnable W).
#[local] Abbreviation ChatModel := (@ChatModel W).
#[local] Abbreviation Embeddings := (@Embeddings W).
#[local] Abbreviation VectorStore := (@VectorStore W).

(** ** What [print] shows *)

Definition repr_message (m : string * string) : string :=
  "(" +:+ repr_str m.1 +:+ ", " +:+ repr_str m.2 +:+ ")".

(** [str(v)], which is what an f-string field [{v}] expands to. *)
Definition py_str (v : value) : string :=
  match v with
  | VNone => "None"
  | VStr s => s
  | VDocs ds => "[" +:+ join ", " (map repr_doc ds) +:+ "]"
  | VMessages ms => "[" +:+ join ", " (map repr_message ms) +:+ "]"
  end.

(** ** The setup cells *)

(** [os.environ["OPENAI_API_KEY"] = getpass.getpass()]. *)
Definition set_openai_key : io unit :=
  key ← getpass;
  environ_setitem "OPENAI_API_KEY" key.

(** The LangSmith cell. *)
Definition set_langsmith : io unit :=
  environ_setitem "LANGCHAIN_TRACING_V2" "true";;
  key ← getpass;
  environ_setitem "LANGCHAIN_API_KEY" key.

Definition setup : io unit := set_openai_key;; set_langsmith.

(** ** The library behind the chain

    The objects below belong to the library; the cells only construct and
    compose them. *)

(** Modelled from the spec: [Runnable.pick] is library code outside the
    sources; the notebook uses it to select only the desired key of every
    streamed chunk. A chunk without the key, or with [None] under it,
    contributes nothing. *)
Definition picked (key : string) (c : Chunk) : option value :=
  match c !! key with
  | Some VNone => None
  | Some v => Some v
  | None => None
  end.

(** Modelled from the spec: the stream of a picked chain, the selected
    values in the order of the chunks, ending as the chain's stream does. *)
Definition pick_stream (key : string) (s : Stream Chunk) : Stream value :=
  {| items := omap (picked key) (items s); failure := failure s |}.

(** Modelled from the spec: [chain.pick(key)], the chain whose stream is
    the picked stream of [chain]. *)
Definition pick (key : string) (chain : Runnable Chunk) : Runnable value :=
  {| stream := fun inp env w =>
       let '(w', s) := stream chain inp env w in
       (w', pick_stream key s) |}.

Record WebBaseLoader := { web_paths : list string; parse_only : list string }.

(** Modelled from the spec: the loader is library code outside the sources;
    it produces one document per page, the page text plus a source-URL
    metadata field. *)
Fixpoint load_pages (classes : list string) (urls : list string)
  : ext (list Document) :=
  match urls with
  | [] => mret []
  | url :: urls' =>
      page ← scrape url classes;
      docs ← load_pages classes urls';
      mret ({| page_content := page;
               metadata := {[ "source" := url ]} |} :: docs)
  end.

(** Modelled from the spec: [loader.load()], the documents of the pages
    the loader points at. *)
Definition load (loader : WebBaseLoader) : ext (list Document) :=
  load_pages (parse_only loader) (web_paths loader).

Record RecursiveCharacterTextSplitter := { chunk_size : nat; chunk_overlap : nat }.

(** Modelled from the spec: the splitter is library code outside the
    sources; it splits the page into text chunks, and each piece is a
    document that keeps the metadata of the document it was cut from. *)
Definition split_documents (sp : RecursiveCharacterTextSplitter)
    (docs : list Document) : list Document :=
  d ← docs;
  (fun t => {| page_content := t; metadata := metadata d |})
    <$> split_text (chunk_size sp) (chunk_overlap sp) (page_content d).

(** Modelled from the spec: the vector store is library code outside the
    sources; it embeds the pieces and indexes them. *)
Definition Chroma_from_documents (documents : list Document)
    (embedding : Embeddings Vector) : ext (VectorStore Vector) :=
  vs ← embed_documents embedding (page_content <$> documents);
  mret {| embedding_function := embedding; entries := zip documents vs |}.

(** Modelled from the spec: the retriever is library code outside the
    sources; given a query it returns a ranked set of documents from the
    index. *)
Definition as_retriever (vectorstore : VectorStore Vector)
  : string -> ext (list Document) :=
  fun query =>
    q ← embed_query (embedding_function vectorstore) query;
    mret (omap (fun i => fst <$> entries vectorstore !! i)
               (nearest q (snd <$> entries vectorstore))).

(** The prompt of the question-answering chain: the system text with the
    retrieved context in place of its field, then the question. *)
Definition system_prompt (context : string) : string :=
  "You are an assistant for question-answering tasks. " +:+
  "Use the following pieces of retrieved context to answer " +:+
  "the question. If you don't know the answer, say that you " +:+
  "don't know. Use three sentences maximum and keep the " +:+
  "answer concise." +:+
  nl +:+ nl +:+
  context.

Definition prompt (context input_ : string) : list (string * string) :=
  [("system", system_prompt context); ("human", input_)].

(** Modelled from the spec: the question-answering chain is library code
    outside the sources; it is built from a prompt template and a
    language-model client and streams the text of the answer. *)
Definition create_stuff_documents_chain (llm : ChatModel)
    (prompt : string -> string -> list (string * string))
  : string -> list Document -> gen string :=
  fun query docs env w =>
    let '(w', s) := llm_stream llm (prompt (format_documents docs) query) env w in
    (w', {| items := content <$> items s; failure := failure s |}).

Definition answer_chunk (fragment : string) : Chunk :=
  {[ "answer" := VStr fragment ]}.

(** Modelled from the spec: the retrieval chain is library code outside the
    sources; its stream carries the keys in a fixed order, [input] (the
    original query string), then [context] (the retrieved documents), then
    a sequence of [answer] fragments. *)
Definition create_retrieval_chain
    (retriever : string -> ext (list Document))
    (combine_docs_chain : string -> list Document -> gen string)
  : Runnable Chunk :=
  {| stream := fun inp env w =>
       match inp !! "input" with
       | Some (VStr query) =>
           match retriever query env w with
           | (w1, inl e) =>
               (w1, yield {[ "input" := VStr query ]} (raising e))
           | (w1, inr docs) =>
               let '(w2, s) := combine_docs_chain query docs env w1 in
               (w2, yield {[ "input" := VStr query ]}
                      (yield {[ "context" := VDocs docs ]}
                         {| items := answer_chunk <$> items s;
                            failure := failure s |}))
           end
       | _ => (w, raising (KeyError "input"))
       end |}.

(** Modelled from the spec: the events of a retriever run are library code
    outside the sources; the start event carries the query, the end event
    the query and the retrieved documents. *)
Definition retriever_events (run_id_ : string) (tags_ : list string)
    (query : string) (docs : list Document) : list StreamEvent :=
  let input_ : Chunk := {[ "query" := VStr query ]} in
  [ {| event := "on_retriever_start"; name := "Retriever";
       run_id := run_id_; tags := tags_; event_metadata := ∅;
       data := {| input := Some input_; output := None; chunk := None |} |};
    {| event := "on_retriever_end"; name := "Retriever";
       run_id := run_id_; tags := tags_; event_metadata := ∅;
       data := {| input := Some input_;
                  output := Some {[ "documents" := VDocs docs ]};
                  chunk := None |} |} ].

(** ** The cells that build the chain *)

(** Cell [1]: [llm = ChatOpenAI()]. *)
Definition select_llm : io ChatModel := call ChatOpenAI.

Definition blog_post : string :=
  "https://lilianweng.github.io/posts/2023-06-23-agent/".

(** Cell [2], step 1: load, chunk and index the contents of the blog to
    create a retriever. *)
Definition loader : WebBaseLoader :=
  {| web_paths := [blog_post];
     parse_only := ["post-content"; "post-title"; "post-header"] |}.

Definition text_splitter : RecursiveCharacterTextSplitter :=
  {| chunk_size := 1000; chunk_overlap := 200 |}.

Definition build_retriever : io (string -> ext (list Document)) :=
  docs ← call (load loader);
  let splits := split_documents text_splitter docs in
  embedding ← call OpenAIEmbeddings;
  vectorstore ← call (Chroma_from_documents splits embedding);
  mret (as_retriever vectorstore).

(** Cell [2], step 2: incorporate the retriever into a question-answering
    chain. *)
Definition build_rag_chain (llm : ChatModel) : io (Runnable Chunk) :=
  retriever ← build_retriever;
  let question_answer_chain := create_stuff_documents_chain llm prompt in
  mret (create_retrieval_chain retriever question_answer_chain).

(** ** The consumer cells *)

Definition question : Chunk := {[ "input" := VStr "What is Task Decomposition?" ]}.

(** Cell [3]: print every chunk. *)
Definition print_chunk (chunk : Chunk) : io unit :=
  print (repr_chunk chunk) nl.

Definition stream_final_outputs (rag_chain : Runnable Chunk) : io unit :=
  for_in (stream rag_chain question) print_chunk.

(** Cell [4]: select the chunks with an [answer]. *)
Definition print_answer (chunk : Chunk) : io unit :=
  let answer_chunk := get "answer" chunk in
  if truthy answer_chunk
  then print (py_str answer_chunk +:+ "|") ""
  else ret tt.

Definition stream_answer_key (rag_chain : Runnable Chunk) : io unit :=
  for_in (stream rag_chain question) print_answer.

(** Cell [5]: the same through [rag_chain.pick("answer")]. *)
Definition print_picked (chunk : value) : io unit :=
  print (py_str chunk +:+ "|") "".

Definition stream_picked (rag_chain : Runnable Chunk) : io unit :=
  let chain := pick "answer" rag_chain in
  for_in (stream chain question) print_picked.

(** Cell [7]: the tokens of the question re-phrasing step. *)
Definition first_question : string := "What is task decomposition?".
Definition first_answer : string :=
  "Task decomposition involves breaking up " +:+
  "a complex task into smaller and simpler " +:+
  "steps.".
Definition follow_up_question : string := "What are some common ways of doing it?".

Definition chat_history : list (string * string) :=
  [("human", first_question); ("ai", first_answer)].

Definition follow_up : Chunk :=
  {[ "input" := VStr follow_up_question;
     "chat_history" := VMessages chat_history ]}.

Definition print_contextualize_q (event_ : StreamEvent) : io unit :=
  if String.eqb (event event_) "on_chat_model_stream"
     && bool_decide ("contextualize_q_llm" ∈ tags event_)
  then
    ai_message_chunk ← getitem_chunk (data event_);
    print (content ai_message_chunk +:+ "|") ""
  else ret tt.

Definition stream_contextualize_q (rag_chain : EventRunnable) : io unit :=
  async_for_in (astream_events rag_chain follow_up "v1") print_contextualize_q.

(** Cell [8]: the events of the retriever. *)
Definition print_retriever (event_ : StreamEvent) : io unit :=
  if String.eqb (name event_) "Retriever"
  then print (repr_event event_) nl;; print "" nl
  else ret tt.

Definition stream_retriever_events (rag_chain : EventRunnable) : io unit :=
  async_for_in (astream_events rag_chain follow_up "v1") print_retriever.

(** ** The loops of the notebook *)

Inductive iteration := For | AsyncFor.

(** The loops of the notebook that consume a streaming call, in the order
    of their cells. *)
Inductive consumer :=
| FinalOutputs
| AnswerKey
| Picked
| ContextualizeQ
| RetrieverEvents.

Definition consumers : list consumer :=
  [FinalOutputs; AnswerKey; Picked; ContextualizeQ; RetrieverEvents].

(** The keyword that opens the loop. *)
Definition loop_keyword (c : consumer) : iteration :=
  match c with
  | FinalOutputs | AnswerKey | Picked => For
  | ContextualizeQ | RetrieverEvents => AsyncFor
  end.

(** The method the loop iterates over. *)
Definition streaming_call (c : consumer) : string :=
  match c with
  | FinalOutputs | AnswerKey | Picked => "stream"
  | ContextualizeQ | RetrieverEvents => "astream_events"
  end.

(** The [rag_chain] of cells [3] to [5] is the retrieval chain; the one of
    cells [7] and [8] is the conversational chain that replaced it. *)
Definition run_consumer (rag_chain : Runnable Chunk)
    (conversational_rag_chain : EventRunnable) (c : consumer) : io unit :=
  match c with
  | FinalOutputs => stream_final_outputs rag_chain
  | AnswerKey => stream_answer_key rag_chain
  | Picked => stream_picked rag_chain
  | ContextualizeQ => stream_contextualize_q conversational_rag_chain
  | RetrieverEvents => stream_retriever_events conversational_rag_chain
  end.

#[export] Instance iteration_eq_dec : EqDecision iteration.
Proof. solve_decision. Defined.

Definition loops_with (k : iteration) : list consumer :=
  filter (fun c => loop_keyword c = k) consumers.

(** The environment variables the setup cells assign. *)
Definition assigned_variables : gset string :=
  {[ "OPENAI_API_KEY"; "LANGCHAIN_TRACING_V2"; "LANGCHAIN_API_KEY" ]}.

(** ** The claims in their own words *)

(** The answer filter: a chunk is emitted when it has a truthy value under
    [answer], as that value. *)
Definition selected_answer (c : Chunk) : option string :=
  match c !! "answer" with
  | Some v => if truthy v then Some (py_str v +:+ "|") else None
  | None => None
  end.

(** Every [answer] value of the stream is a text fragment. *)
Definition text_answers (cs : list Chunk) : Prop :=
  forall c v, c ∈ cs -> c !! "answer" = Some v -> exists t, v = VStr t.

(** The two event filters. *)
Definition selects_contextualize_q (ev : StreamEvent) : Prop :=
  event ev = "on_chat_model_stream" /\ "contextualize_q_llm" ∈ tags ev.

Definition selects_retriever (ev : StreamEvent) : Prop :=
  name ev = "Retriever".

(** A chat-model stream event carries the streamed message chunk. *)
Definition carries_chunk (ev : StreamEvent) : Prop :=
  event ev = "on_chat_model_stream" -> is_Some (chunk (data ev)).

Definition contextualize_q_output (ev : StreamEvent) : list string :=
  if decide (selects_contextualize_q ev)
  then match chunk (data ev) with
       | Some c => [content c +:+ "|"]
       | None => []
       end
  else [].

Definition retriever_output (ev : StreamEvent) : list string :=
  if decide (selects_retriever ev) then [repr_event ev +:+ nl; nl] else [].

(** The order of the keys over the chunks of a stream: [input], then
    [context], then [answer] fragments. *)
Definition key_at (i : nat) : string :=
  match i with
  | 0 => "input"
  | 1 => "context"
  | _ => "answer"
  end.

(** The three ways a run of the retrieval chain leaves its stream: no
    query to start from, a retrieval that raised, or an answer streamed
    after the retrieved documents. *)
Inductive retrieval_run (retriever : string -> ext (list Document))
    (inp : Chunk) (env : gmap string string) (w : W)
  : Stream Chunk -> Prop :=
| run_no_query :
    (forall q, inp !! "input" <> Some (VStr q)) ->
    retrieval_run retriever inp env w (raising (KeyError "input"))
| run_retrieval_raised q w1 e :
    inp !! "input" = Some (VStr q) ->
    retriever q env w = (w1, inl e) ->
    retrieval_run retriever inp env w
      (yield {[ "input" := VStr q ]} (raising e))
| run_answered q w1 docs fragments fail :
    inp !! "input" = Some (VStr q) ->
    retriever q env w = (w1, inr docs) ->
    retrieval_run retriever inp env w
      {| items := {[ "input" := VStr q ]} :: {[ "context" := VDocs docs ]}
                  :: (answer_chunk <$> fragments);
         failure := fail |}.

(** A selected event has the chunk the loop of cell [7] prints from. *)
Definition printable (ev : StreamEvent) : Prop :=
  selects_contextualize_q ev -> is_Some (chunk (data ev)).

(** A computation that does nothing to the state but write to standard
    output. *)
Definition only_writes {A} (m : io A) : Prop :=
  forall st, exists out, (m st).1 = emit out st.

(** The text of the answer carried by a sequence of chunks. *)
Definition answer_text (cs : list Chunk) : string :=
  text (omap (fun c : Chunk => match c !! "answer" with
                               | Some (VStr t) => Some t
                               | _ => None
                               end) cs).

End Cells.

(** ** A sample run

    One world for the library: a page that loads, an embedding service
    that needs the credential, a model that answers in four fragments, the
    first and the last of them empty, as in the output recorded under
    cell [3]. *)

Definition sample_repr_str (s : string) : string := "'" +:+ s +:+ "'".

Definition sample_repr_doc (d : Document) : string :=
  "Document(page_content=" +:+ sample_repr_str (page_content d) +:+ ")".

Definition sample_repr_chunk (c : Chunk) : string :=
  "{" +:+ join ", " (sample_repr_str <$> elements (dom c)) +:+ "}".

Definition sample_repr_event (ev : StreamEvent) : string :=
  "{'event': " +:+ sample_repr_str (event ev) +:+
  ", 'name': " +:+ sample_repr_str (name ev) +:+ "}".

Definition sample_state : @State unit :=
  {| environ := ∅; tty := ["sk-sample"; "ls-sample"]; stdout := []; world := tt |}.

Definition sample_page : string := "Task decomposition can be done by LLM.".

Definition sample_scrape : string -> list string -> @ext unit string :=
  fun url classes env w => (w, inr sample_page).

Definition sample_split_text (size overlap : nat) (t : string) : list string :=
  [t].

Definition sample_nearest (q : nat) (vs : list nat) : list nat := [0].

Definition sample_embeddings : @Embeddings unit nat :=
  {| embed_documents := fun texts env w => (w, inr (String.length <$> texts));
     embed_query := fun query env w => (w, inr (String.length query)) |}.

Definition missing_credential : exn :=
  Exn "OpenAIError" "The api_key client option must be set".

Definition sample_OpenAIEmbeddings : @ext unit (@Embeddings unit nat) :=
  fun env w =>
    match env !! "OPENAI_API_KEY" with
    | Some _ => (w, inr sample_embeddings)
    | None => (w, inl missing_credential)
    end.

Definition sample_llm : @ChatModel unit :=
  {| llm_stream := fun messages env w =>
       (w, {| items := [ {| content := "" |}; {| content := "Task" |};
                         {| content := " decomposition" |}; {| content := "" |} ];
              failure := None |}) |}.

Definition sample_ChatOpenAI : @ext unit (@ChatModel unit) :=
  fun env w =>
    match env !! "OPENAI_API_KEY" with
    | Some _ => (w, inr sample_llm)
    | None => (w, inl missing_credential)
    end.

#[export] Instance sample_library : Library unit := {|
  Vector := nat;
  repr_str := sample_repr_str;
  repr_doc := sample_repr_doc;
  repr_chunk := sample_repr_chunk;
  repr_event := sample_repr_event;
  scrape := sample_scrape;
  split_text := sample_split_text;
  nearest := sample_nearest;
  format_documents := fun docs => join (nl +:+ nl) (page_content <$> docs);
  ChatOpenAI := sample_ChatOpenAI;
  OpenAIEmbeddings := sample_OpenAIEmbeddings
|}.

Definition sample_document : Document :=
  {| page_content := sample_page; metadata := {[ "source" := blog_post ]} |}.

Definition sample_retriever : string -> @ext unit (list Document) :=
  fun query env w => (w, inr [sample_document]).

Definition sample_rag_chain : @Runnable unit Chunk :=
  create_retrieval_chain sample_retriever
    (create_stuff_documents_chain sample_llm prompt).

Definition sample_stream : Stream Chunk :=
  {| items := [ {[ "input" := VStr "What is Task Decomposition?" ]};
                answer_chunk ""; answer_chunk "Task";
                answer_chunk " decomposition"; answer_chunk "" ];
     failure := None |}.

Definition sample_events : Stream StreamEvent :=
  {| items :=
       {| event := "on_chat_model_stream"; name := "ChatOpenAI";
          run_id := "1"; tags := ["seq:step:2"; "contextualize_q_llm"];
          event_metadata := ∅;
          data := {| input := None; output := None;
                     chunk := Some {| content := "What" |} |} |}
       :: retriever_events "2" ["seq:step:4"; "Chroma"; "OpenAIEmbeddings"]
            "What are some typical methods used for task decomposition?" []
       ++ [ {| event := "on_chat_model_stream"; name := "ChatOpenAI";
               run_id := "3"; tags := ["seq:step:3"];
               event_metadata := ∅;
               data := {| input := None; output := None;
                          chunk := Some {| content := "Task" |} |} |} ];
     failure := None |}.


(** A terminal where only the first prompt is answered. *)
Definition one_line_state : @State unit :=
  {| environ := ∅; tty := ["sk-sample"]; stdout := []; world := tt |}.

(** An event the filter of cell [7] selects, without its chunk. *)
Definition bare_event : StreamEvent :=
  {| event := "on_chat_model_stream"; name := "ChatOpenAI";
     run_id := "4"; tags := ["contextualize_q_llm"];
     event_metadata := ∅;
     data := {| input := None; output := None; chunk := None |} |}.

(** * Properties *)

Section Properties.

Context {W : Type} `{lib : !Library W}.

#[local] Abbreviation State := (@State W).
#[local] Abbreviation io := (@io W).
#[local] Abbreviation ext := (@ext W).
#[local] Abbreviation gen := (@gen W).
#[local] Abbreviation Runnable := (@Runnable W).
#[local] Abbreviation EventRunnable := (@EventRunnable W).
#[local] Abbreviation ChatModel := (@ChatModel W).

(** ** Basic facts *)

Lemma emit_nil (st : State) : emit [] st = st.
Proof. destruct st; unfold emit; simpl. by rewrite app_nil_r. Qed.

Lemma emit_emit (l1 l2 : list string) (st : State) :
  emit l2 (emit l1 st) = emit (l1 ++ l2) st.
Proof. unfold emit; simpl. by rewrite app_assoc. Qed.

Lemma append_empty_r (s : string) : s +:+ "" = s.
Proof.
  induction s as [|a s IH]; [done |].
  change (String a (s +:+ "") = String a s). by rewrite IH.
Qed.

Lemma print_emit (s end_ : string) (st : State) :
  print s end_ st = (emit [s +:+ end_] st, inr tt).
Proof. reflexivity. Qed.

Lemma written_emit {A} (m : io A) (st : State) out r :
  m st = (emit out st, r) -> written m st = out.
Proof.
  intros H. unfold written. rewrite H; simpl. by rewrite drop_app_length.
Qed.

Lemma fragment_sep (s : string) : fragment (s +:+ "|") = s.
Proof.
  induction s as [|a s IH]; [done |].
  change (String a s +:+ "|") with (String a (s +:+ "|")).
  simpl fragment. rewrite IH. by destruct s.
Qed.

Lemma bind_run {A B} (m : io A) (k : A -> io B) (st : State) :
  (m ≫= k) st = match m st with
                | (st', inl e) => (st', inl e)
                | (st', inr a) => k a st'
                end.
Proof. reflexivity. Qed.

(** A loop whose body only writes: it writes for every item in turn and
    ends as the stream does. *)
Lemma for_each_emit {A} (body : A -> io unit) (out : A -> list string)
    (xs : list A) :
  (forall x, x ∈ xs -> forall st, body x st = (emit (out x) st, inr tt)) ->
  forall st, for_each body xs st = (emit (concat (out <$> xs)) st, inr tt).
Proof.
  induction xs as [|x xs IH]; intros Hbody st.
  - simpl. by rewrite emit_nil.
  - cbn [for_each]. rewrite bind_run, Hbody by apply list_elem_of_here.
    rewrite IH by (intros y Hy; apply Hbody; by apply list_elem_of_further).
    by rewrite emit_emit.
Qed.

Lemma consume_emit {A} (body : A -> io unit) (out : A -> list string)
    (s : Stream A) :
  (forall x, x ∈ items s -> forall st, body x st = (emit (out x) st, inr tt)) ->
  forall st, consume s body st = (emit (concat (out <$> items s)) st, outcome s).
Proof.
  intros Hbody st. unfold consume, outcome.
  rewrite bind_run, (for_each_emit body out) by done.
  by destruct (failure s).
Qed.

Lemma for_in_consume {A} (g : gen A) (body : A -> io unit) (st : State) :
  for_in g body st =
  consume (g (environ st) (world st)).2 body
    (with_world (g (environ st) (world st)).1 st).
Proof. unfold for_in. by destruct (g (environ st) (world st)). Qed.

Lemma truthy_str_nonempty (v : value) : truthy v = true -> py_str v <> "".
Proof.
  destruct v as [|s|ds|ms]; simpl; try done.
  intros H ->. done.
Qed.

Lemma print_answer_emit (c : Chunk) (st : State) :
  print_answer c st = (emit (option_list (selected_answer c)) st, inr tt).
Proof.
  unfold print_answer, selected_answer, get.
  destruct (c !! "answer") as [v|]; simpl.
  - destruct (truthy v); simpl.
    + by rewrite print_emit, append_empty_r.
    + unfold ret. by rewrite emit_nil.
  - unfold ret. by rewrite emit_nil.
Qed.

Lemma print_picked_emit (v : value) (st : State) :
  print_picked v st = (emit [py_str v +:+ "|"] st, inr tt).
Proof. unfold print_picked. by rewrite print_emit, append_empty_r. Qed.

Lemma concat_option_list {A B} (f : A -> option B) (xs : list A) :
  concat ((fun x => option_list (f x)) <$> xs) = omap f xs.
Proof.
  induction xs as [|x xs IH]; [done |].
  csimpl. rewrite IH. by destruct (f x).
Qed.

Lemma concat_singleton {A B} (f : A -> B) (xs : list A) :
  concat ((fun x => [f x]) <$> xs) = f <$> xs.
Proof. induction xs as [|x xs IH]; [done |]. csimpl. by rewrite IH. Qed.

Lemma consume_print_answer (s : Stream Chunk) (st : State) :
  consume s print_answer st =
  (emit (omap selected_answer (items s)) st, outcome s).
Proof.
  rewrite (consume_emit print_answer (fun c => option_list (selected_answer c)))
    by (intros c _ st'; apply print_answer_emit).
  by rewrite concat_option_list.
Qed.

Lemma consume_print_picked (s : Stream value) (st : State) :
  consume s print_picked st =
  (emit ((fun v => py_str v +:+ "|") <$> items s) st, outcome s).
Proof.
  rewrite (consume_emit print_picked (fun v => [py_str v +:+ "|"]))
    by (intros v _ st'; apply print_picked_emit).
  by rewrite concat_singleton.
Qed.

Lemma selected_answer_Some (c : Chunk) (w : string) :
  selected_answer c = Some w <->
  exists v, c !! "answer" = Some v /\ truthy v = true /\ w = py_str v +:+ "|".
Proof.
  unfold selected_answer. split.
  - destruct (c !! "answer") as [v|]; [|done].
    destruct (truthy v) eqn:Hv; [|done].
    intros [= <-]. by exists v.
  - intros (v & -> & -> & ->). done.
Qed.

Lemma for_in_run {A} (g : gen A) (body : A -> io unit) (st : State) w s :
  g (environ st) (world st) = (w, s) ->
  for_in g body st = consume s body (with_world w st).
Proof. intros Hg. unfold for_in. by rewrite Hg. Qed.

Lemma print_chunk_emit (c : Chunk) (st : State) :
  print_chunk c st = (emit [repr_chunk c +:+ nl] st, inr tt).
Proof. reflexivity. Qed.

Lemma consume_print_chunk (s : Stream Chunk) (st : State) :
  consume s print_chunk st =
  (emit ((fun c => repr_chunk c +:+ nl) <$> items s) st, outcome s).
Proof.
  rewrite (consume_emit print_chunk (fun c => [repr_chunk c +:+ nl]))
    by (intros c _ st'; apply print_chunk_emit).
  by rewrite concat_singleton.
Qed.

Lemma outcome_failure {A} (s : Stream A) e :
  failure s = Some e -> outcome s = inl e.
Proof. unfold outcome. by intros ->. Qed.

Lemma ext_bind_run {A B} (m : ext A) (k : A -> ext B) env (w : W) :
  (m ≫= k) env w = match m env w with
                   | (w', inl e) => (w', inl e)
                   | (w', inr a) => k a env w'
                   end.
Proof. reflexivity. Qed.

Lemma call_run {A} (f : ext A) (st : State) :
  call f st = (with_world (f (environ st) (world st)).1 st,
               (f (environ st) (world st)).2).
Proof. unfold call. by destruct (f (environ st) (world st)). Qed.

(** ** The stream of the retrieval chain *)

Lemma create_retrieval_chain_run retriever combine_docs_chain inp env (w : W) :
  retrieval_run retriever inp env w
    (stream (create_retrieval_chain retriever combine_docs_chain) inp env w).2.
Proof.
  cbn [stream create_retrieval_chain].
  destruct (inp !! "input") as [v|] eqn:Hinp.
  - destruct v as [|q|ds|ms];
      try (apply run_no_query; intros q'; congruence).
    destruct (retriever q env w) as [w1 [e|docs]] eqn:Hret.
    + by eapply run_retrieval_raised.
    + destruct (combine_docs_chain q docs env w1) as [w2 s].
      by eapply run_answered.
  - apply run_no_query. intros q'. congruence.
Qed.

Lemma lookup_answer_chunks (fragments : list string) (i : nat) (c : Chunk) :
  (answer_chunk <$> fragments) !! i = Some c ->
  exists t, c = answer_chunk t.
Proof.
  rewrite list_lookup_fmap. destruct (fragments !! i) as [t|]; [|done].
  intros [= <-]. by exists t.
Qed.

Lemma retrieval_run_keys retriever inp env (w : W) s :
  retrieval_run retriever inp env w s ->
  forall i c, items s !! i = Some c -> dom c = {[ key_at i ]}.
Proof.
  intros Hrun i c Hc. destruct Hrun; simpl in Hc.
  - done.
  - destruct i as [|i]; [|done]. injection Hc as <-. apply dom_singleton_L.
  - destruct i as [|[|i]].
    + injection Hc as <-. apply dom_singleton_L.
    + injection Hc as <-. apply dom_singleton_L.
    + apply lookup_answer_chunks in Hc as [t ->]. apply dom_singleton_L.
Qed.

Lemma retrieval_run_chunk retriever inp env (w : W) s c :
  retrieval_run retriever inp env w s -> c ∈ items s ->
  (exists q, inp !! "input" = Some (VStr q) /\ c = {[ "input" := VStr q ]})
  \/ (exists docs, c = {[ "context" := VDocs docs ]})
  \/ (exists t, c = answer_chunk t).
Proof.
  intros Hrun Hin. destruct Hrun; simpl in Hin.
  - by apply elem_of_nil in Hin.
  - apply list_elem_of_singleton in Hin as ->. left. eauto.
  - apply elem_of_cons in Hin as [->|Hin]; [left; eauto |].
    apply elem_of_cons in Hin as [->|Hin]; [right; left; eauto |].
    apply list_elem_of_fmap in Hin as (t & -> & _). right; right; eauto.
Qed.

Lemma key_at_later (i j : nat) : i < j -> key_at i = key_at j -> key_at i = "answer".
Proof.
  destruct i as [|[|i]], j as [|[|j]]; simpl; try done; lia.
Qed.

Lemma written_stream_final_outputs (rag_chain : Runnable Chunk) (st : State) :
  written (stream_final_outputs rag_chain) st
  = (fun c => repr_chunk c +:+ nl)
      <$> items (stream rag_chain question (environ st) (world st)).2.
Proof.
  unfold written, stream_final_outputs.
  rewrite for_in_consume, consume_print_chunk. simpl.
  by rewrite drop_app_length.
Qed.

Lemma retrieval_run_first retriever inp env (w : W) s q :
  retrieval_run retriever inp env w s ->
  inp !! "input" = Some (VStr q) ->
  items s !! 0 = Some {[ "input" := VStr q ]}.
Proof.
  intros Hrun Hq. destruct Hrun as [Hno|q' w1 e Hq' _|q' w1 docs fs fail Hq' _].
  - by destruct (Hno q).
  - rewrite Hq in Hq'. by injection Hq' as <-.
  - rewrite Hq in Hq'. by injection Hq' as <-.
Qed.

(** C1: over every run of the stream of the retrieval chain the keys come
    in a fixed order: the first chunk carries [input], the second
    [context], every later one [answer]; no later chunk carries again the
    key of an earlier one, apart from the [answer] fragments; a run that
    ends without an exception has gone through all three, and the loop of
    cell [3] prints the chunks in that order, one per line. *)
Theorem stream_keys_in_order retriever combine_docs_chain inp env (w : W) :
  let s := (stream (create_retrieval_chain retriever combine_docs_chain)
              inp env w).2 in
  (forall i c, items s !! i = Some c -> dom c = {[ key_at i ]})
  /\ (forall i j ci cj k, i < j ->
        items s !! i = Some ci -> items s !! j = Some cj ->
        k ∈ dom ci -> k ∈ dom cj -> k = "answer")
  /\ (forall q, inp !! "input" = Some (VStr q) ->
        items s !! 0 = Some {[ "input" := VStr q ]})
  /\ (failure s = None ->
      exists q docs fragments,
        items s = {[ "input" := VStr q ]} :: {[ "context" := VDocs docs ]}
                  :: (answer_chunk <$> fragments))
  /\ (forall st : State,
        written (stream_final_outputs
                   (create_retrieval_chain retriever combine_docs_chain)) st
        = (fun c => repr_chunk c +:+ nl)
            <$> items (stream (create_retrieval_chain retriever combine_docs_chain)
                         question (environ st) (world st)).2).
Proof.
  intros s.
  pose proof (create_retrieval_chain_run retriever combine_docs_chain inp env w)
    as Hrun. fold s in Hrun.
  split; [|split; [|split; [|split]]].
  - by eapply retrieval_run_keys.
  - intros i j ci cj k Hij Hi Hj Hki Hkj.
    rewrite (retrieval_run_keys _ _ _ _ _ Hrun i ci Hi) in Hki.
    rewrite (retrieval_run_keys _ _ _ _ _ Hrun j cj Hj) in Hkj.
    apply elem_of_singleton in Hki, Hkj. subst k.
    by apply (key_at_later i j).
  - intros q Hq. by eapply retrieval_run_first.
  - destruct Hrun; simpl; try done. intros _. eauto.
  - intros st. apply written_stream_final_outputs.
Qed.

(** C2: every chunk of the stream of the retrieval chain is a mapping with
    keys among [input], [context] and [answer]; the value under [input] is
    the query string passed to the call, the value under [context] a
    sequence of documents, the value under [answer] a text fragment. *)
Theorem stream_chunk_shape retriever combine_docs_chain inp env (w : W) c :
  c ∈ items (stream (create_retrieval_chain retriever combine_docs_chain)
               inp env w).2 ->
  dom c ⊆ {[ "input"; "context"; "answer" ]}
  /\ (forall v, c !! "input" = Some v ->
        inp !! "input" = Some v /\ exists q, v = VStr q)
  /\ (forall v, c !! "context" = Some v -> exists docs, v = VDocs docs)
  /\ (forall v, c !! "answer" = Some v -> exists t, v = VStr t).
Proof.
  intros Hin.
  pose proof (create_retrieval_chain_run retriever combine_docs_chain inp env w)
    as Hrun.
  destruct (retrieval_run_chunk _ _ _ _ _ _ Hrun Hin)
    as [(q & Hq & ->)|[(docs & ->)|(t & ->)]]; unfold answer_chunk;
    (split; [rewrite dom_singleton_L; apply singleton_subseteq_l;
             rewrite !elem_of_union, !elem_of_singleton; auto |]);
    (split; [|split]); intros v Hv;
    apply lookup_singleton_Some in Hv as [? <-]; try done; eauto.
Qed.

(** ** The answer filter of cell [4] *)

(** C3: over every sequence of streamed chunks the key-filtering loop writes
    for a chunk exactly when the chunk has a truthy value under [answer];
    what it writes is that value (followed by the separator of the cell);
    a chunk without the key [answer] writes nothing. *)
Theorem answer_filter_selects (s : Stream Chunk) (st : State) :
  consume s print_answer st
    = (emit (omap selected_answer (items s)) st, outcome s)
  /\ (forall c (st' : State), written (print_answer c) st' <> [] <->
        exists v, c !! "answer" = Some v /\ truthy v = true)
  /\ (forall c (st' : State) w, w ∈ written (print_answer c) st' <->
        exists v, c !! "answer" = Some v /\ truthy v = true /\
                  w = py_str v +:+ "|" /\ fragment w = py_str v)
  /\ (forall c (st' : State) t, c !! "answer" = Some (VStr t) -> t <> "" ->
        written (print_answer c) st' = [t +:+ "|"])
  /\ (forall c (st' : State), c !! "answer" = None -> print_answer c st' = (st', inr tt))
  /\ (forall rag_chain,
        written (stream_answer_key rag_chain) st
        = omap selected_answer
            (items (stream rag_chain question (environ st) (world st)).2)).
Proof.
  split; [apply consume_print_answer |].
  assert (Hw : forall c (st' : State),
             written (print_answer c) st' = option_list (selected_answer c))
    by (intros c st'; apply (written_emit _ _ _ (inr tt)), print_answer_emit).
  repeat split.
  - rewrite Hw. destruct (selected_answer c) as [w|] eqn:Hsel; [|done].
    intros _. apply selected_answer_Some in Hsel as (v & ? & ? & _). eauto.
  - intros (v & Hc & Hv). rewrite Hw. unfold selected_answer.
    by rewrite Hc, Hv.
  - rewrite Hw. intros Hin.
    destruct (selected_answer c) as [w'|] eqn:Hsel; simpl in Hin.
    + apply list_elem_of_singleton in Hin as ->.
      apply selected_answer_Some in Hsel as (v & ? & ? & ->).
      exists v. by rewrite fragment_sep.
    + by apply elem_of_nil in Hin.
  - intros (v & Hc & Hv & -> & _). rewrite Hw. unfold selected_answer.
    rewrite Hc, Hv. apply list_elem_of_here.
  - intros c st' t Hc Ht. rewrite Hw. unfold selected_answer. rewrite Hc.
    simpl. destruct (String.eqb_spec t ""); done.
  - intros c st' Hc. rewrite print_answer_emit. unfold selected_answer.
    rewrite Hc. simpl. by rewrite emit_nil.
  - intros rag_chain. unfold written, stream_answer_key.
    rewrite for_in_consume, consume_print_answer. simpl.
    by rewrite drop_app_length.
Qed.

(** ** The answer filter against [pick] *)

Lemma text_answers_cons (c : Chunk) (cs : list Chunk) :
  text_answers (c :: cs) ->
  (forall v, c !! "answer" = Some v -> exists t, v = VStr t) /\ text_answers cs.
Proof.
  intros H. split.
  - intros v. apply H, list_elem_of_here.
  - intros c' v Hin. apply H. by apply list_elem_of_further.
Qed.

Lemma filter_pick_fragments (cs : list Chunk) :
  text_answers cs ->
  text (fragment <$> omap selected_answer cs)
    = text (fragment <$> ((fun v => py_str v +:+ "|") <$> omap (picked "answer") cs))
  /\ omap selected_answer cs
    = filter (fun w => fragment w <> "")
        ((fun v => py_str v +:+ "|") <$> omap (picked "answer") cs).
Proof.
  induction cs as [|c cs IH]; intros Htext; [by split |].
  apply text_answers_cons in Htext as [Hc Hcs].
  destruct (IH Hcs) as [IHtext IHfilter]. clear IH.
  cbn [omap list_omap].
  destruct (c !! "answer") as [v|] eqn:Hans.
  - destruct (Hc v eq_refl) as [t ->].
    assert (Hpick : picked "answer" c = Some (VStr t))
      by (unfold picked; by rewrite Hans).
    assert (Hsel : selected_answer c
                   = if negb (String.eqb t "") then Some (t +:+ "|") else None)
      by (unfold selected_answer; by rewrite Hans).
    rewrite Hpick, Hsel.
    destruct (String.eqb_spec t "") as [->|Hne]; cbn [negb].
    + csimpl. split; [done |].
      rewrite filter_cons_False; [done |]. by intros [].
    + csimpl. rewrite !fragment_sep. split; [by f_equal |].
      rewrite filter_cons_True by (by rewrite fragment_sep). by f_equal.
  - assert (Hpick : picked "answer" c = None)
      by (unfold picked; by rewrite Hans).
    assert (Hsel : selected_answer c = None)
      by (unfold selected_answer; by rewrite Hans).
    by rewrite Hpick, Hsel.
Qed.

Lemma retrieval_run_text_answers retriever inp env (w : W) s :
  retrieval_run retriever inp env w s -> text_answers (items s).
Proof.
  intros Hrun c v Hin Hc.
  destruct (retrieval_run_chunk _ _ _ _ _ _ Hrun Hin)
    as [(q & _ & ->)|[(docs & ->)|(t & ->)]].
  - by rewrite lookup_singleton_ne in Hc.
  - by rewrite lookup_singleton_ne in Hc.
  - unfold answer_chunk in Hc. rewrite lookup_singleton_eq in Hc.
    injection Hc as <-. eauto.
Qed.

Lemma written_stream_answer_key (rag_chain : Runnable Chunk) (st : State) :
  written (stream_answer_key rag_chain) st
  = omap selected_answer
      (items (stream rag_chain question (environ st) (world st)).2).
Proof.
  unfold written, stream_answer_key.
  rewrite for_in_consume, consume_print_answer. simpl.
  by rewrite drop_app_length.
Qed.

Lemma written_stream_picked (rag_chain : Runnable Chunk) (st : State) :
  written (stream_picked rag_chain) st
  = (fun v => py_str v +:+ "|")
      <$> omap (picked "answer")
            (items (stream rag_chain question (environ st) (world st)).2).
Proof.
  unfold written, stream_picked. rewrite for_in_consume.
  cbn [stream pick].
  destruct (stream rag_chain question (environ st) (world st)) as [w s].
  rewrite consume_print_picked. simpl. by rewrite drop_app_length.
Qed.

(** C9: over every sequence of streamed chunks whose [answer] values are
    text fragments, the fragments written by the key-filtering loop and the
    fragments written by the loop over [rag_chain.pick("answer")] have the
    same concatenation, and the first output is the second without its
    empty fragments; so it is for cells [4] and [5] run on the retrieval
    chain, whose streams are of that kind. *)
Theorem answer_filter_matches_pick (s : Stream Chunk) (st : State) :
  (text_answers (items s) ->
   let by_key := written (consume s print_answer) st in
   let by_pick := written (consume (pick_stream "answer" s) print_picked) st in
   text (fragment <$> by_key) = text (fragment <$> by_pick)
   /\ by_key = filter (fun w => fragment w <> "") by_pick)
  /\ (forall retriever combine_docs_chain,
        let rag_chain := create_retrieval_chain retriever combine_docs_chain in
        let by_key := written (stream_answer_key rag_chain) st in
        let by_pick := written (stream_picked rag_chain) st in
        text (fragment <$> by_key) = text (fragment <$> by_pick)
        /\ by_key = filter (fun w => fragment w <> "") by_pick).
Proof.
  split.
  - intros Htext.
    rewrite (written_emit _ _ _ _ (consume_print_answer s st)).
    rewrite (written_emit _ _ _ _
               (consume_print_picked (pick_stream "answer" s) st)).
    by apply filter_pick_fragments.
  - intros retriever cdc rag_chain.
    rewrite written_stream_answer_key, written_stream_picked.
    apply filter_pick_fragments.
    eapply retrieval_run_text_answers, create_retrieval_chain_run.
Qed.

(** C10: every fragment written by the key-filtering loop is non-empty; a
    chunk whose [answer] is the empty string is skipped by it, while the
    loop over [rag_chain.pick("answer")] writes the empty fragment. *)
Theorem answer_filter_skips_empty (s : Stream Chunk) (st : State) :
  (forall w, w ∈ written (consume s print_answer) st -> fragment w <> "")
  /\ print_answer (answer_chunk "") st = (st, inr tt)
  /\ written (consume (yield (answer_chunk "") exhausted) print_answer) st = []
  /\ written (consume (pick_stream "answer" (yield (answer_chunk "") exhausted))
                 print_picked) st = ["|"]
  /\ fragment "|" = "".
Proof.
  split; [|split; [|split; [|split]]].
  - intros w. rewrite (written_emit _ _ _ _ (consume_print_answer s st)).
    intros Hin. apply list_elem_of_omap in Hin as (c & _ & Hsel).
    apply selected_answer_Some in Hsel as (v & _ & Hv & ->).
    rewrite fragment_sep. by apply truthy_str_nonempty.
  - rewrite print_answer_emit. by rewrite emit_nil.
  - by rewrite (written_emit _ _ _ _ (consume_print_answer _ st)).
  - by rewrite (written_emit _ _ _ _ (consume_print_picked _ st)).
  - done.
Qed.

(** ** The event filters of cells [7] and [8] *)

Lemma contextualize_q_test (ev : StreamEvent) :
  String.eqb (event ev) "on_chat_model_stream"
    && bool_decide ("contextualize_q_llm" ∈ tags ev) = true
  <-> selects_contextualize_q ev.
Proof.
  unfold selects_contextualize_q.
  rewrite andb_true_iff, String.eqb_eq, bool_decide_eq_true. done.
Qed.

Lemma carries_chunk_printable (ev : StreamEvent) :
  carries_chunk ev -> printable ev.
Proof. intros Hwf [Hev _]. by apply Hwf. Qed.

Lemma print_contextualize_q_printable (ev : StreamEvent) (st : State) :
  printable ev ->
  print_contextualize_q ev st = (emit (contextualize_q_output ev) st, inr tt).
Proof.
  intros Hp. unfold print_contextualize_q, contextualize_q_output.
  destruct (decide (selects_contextualize_q ev)) as [Hsel|Hsel].
  - rewrite (proj2 (contextualize_q_test ev) Hsel).
    destruct (Hp Hsel) as [c Hc].
    unfold getitem_chunk. rewrite Hc, bind_run. unfold ret.
    by rewrite print_emit, append_empty_r.
  - destruct (_ && _) eqn:Htest.
    + by apply contextualize_q_test in Htest.
    + unfold ret. by rewrite emit_nil.
Qed.

Lemma print_contextualize_q_emit (ev : StreamEvent) (st : State) :
  carries_chunk ev ->
  print_contextualize_q ev st = (emit (contextualize_q_output ev) st, inr tt).
Proof. intros Hwf. by apply print_contextualize_q_printable, carries_chunk_printable. Qed.

(** A selected event without a chunk stops the loop with a [KeyError]. *)
Lemma print_contextualize_q_KeyError (ev : StreamEvent) (st : State) :
  selects_contextualize_q ev -> chunk (data ev) = None ->
  print_contextualize_q ev st = (st, inl (KeyError "chunk")).
Proof.
  intros Hsel Hc. unfold print_contextualize_q.
  rewrite (proj2 (contextualize_q_test ev) Hsel).
  unfold getitem_chunk. by rewrite Hc.
Qed.

Lemma print_retriever_emit (ev : StreamEvent) (st : State) :
  print_retriever ev st = (emit (retriever_output ev) st, inr tt).
Proof.
  unfold print_retriever, retriever_output, selects_retriever.
  destruct (String.eqb_spec (name ev) "Retriever") as [Heq|Hne].
  - rewrite decide_True by done.
    rewrite bind_run, !print_emit, emit_emit. done.
  - rewrite decide_False by done. unfold ret. by rewrite emit_nil.
Qed.




(** ** The documents of the pipeline *)

Lemma load_pages_source classes urls env (w w' : W) docs d :
  load_pages classes urls env w = (w', inr docs) -> d ∈ docs ->
  exists url, url ∈ urls /\ metadata d = {[ "source" := url ]}.
Proof.
  revert w w' docs. induction urls as [|url urls IH]; intros w w' docs Hload Hd.
  - injection Hload as _ <-. by apply elem_of_nil in Hd.
  - cbn [load_pages] in Hload. rewrite ext_bind_run in Hload.
    destruct (scrape url classes env w) as [w1 [e|page]]; [done |].
    rewrite ext_bind_run in Hload.
    destruct (load_pages classes urls env w1) as [w2 [e|docs']] eqn:Hrest;
      [done |].
    injection Hload as _ <-.
    apply elem_of_cons in Hd as [->|Hd].
    + exists url. split; [apply list_elem_of_here | done].
    + destruct (IH _ _ _ Hrest Hd) as (url' & Hin & Hmeta).
      exists url'. split; [by apply list_elem_of_further | done].
Qed.

Lemma split_documents_metadata sp docs d :
  d ∈ split_documents sp docs ->
  exists d0, d0 ∈ docs /\ metadata d = metadata d0.
Proof.
  unfold split_documents. intros Hd.
  apply list_elem_of_bind in Hd as (d0 & Hd & Hd0).
  apply list_elem_of_fmap in Hd as (t & -> & _). by exists d0.
Qed.

Lemma as_retriever_entries vectorstore query env (w w' : W) docs d :
  as_retriever vectorstore query env w = (w', inr docs) -> d ∈ docs ->
  d ∈ (entries vectorstore).*1.
Proof.
  unfold as_retriever. rewrite ext_bind_run.
  destruct (embed_query _ query env w) as [w1 [e|q]]; [done |].
  intros [= _ <-] Hd.
  apply list_elem_of_omap in Hd as (i & _ & Hi).
  destruct (entries vectorstore !! i) as [[d' v]|] eqn:Hlook; [|done].
  injection Hi as <-.
  apply list_elem_of_fmap. exists (d', v). split; [done |].
  by eapply list_elem_of_lookup_2.
Qed.

Lemma build_retriever_source st st' retriever :
  build_retriever st = (st', inr retriever) ->
  forall query env w w' docs d,
    retriever query env w = (w', inr docs) -> d ∈ docs ->
    metadata d !! "source" = Some blog_post.
Proof.
  unfold build_retriever. rewrite bind_run, call_run.
  destruct (load loader _ _) as [w1 [e|pages]] eqn:Hload; [done |].
  cbn [fst snd]. rewrite bind_run, call_run.
  destruct (OpenAIEmbeddings _ _) as [w2 [e|embedding]]; [done |].
  cbn [fst snd]. rewrite bind_run, call_run.
  unfold Chroma_from_documents at 1 2. rewrite !ext_bind_run.
  destruct (embed_documents embedding _ _ _) as [w3 [e|vs]]; [done |].
  cbn [fst snd]. intros [= _ <-] query env w w' docs d Hret Hd.
  apply as_retriever_entries with (d := d) in Hret; [|done].
  cbn [entries] in Hret.
  apply list_elem_of_fmap in Hret as ([d' v] & -> & Hzip).
  apply elem_of_zip_l in Hzip. cbn [fst].
  apply split_documents_metadata in Hzip as (d0 & Hd0 & ->).
  destruct (load_pages_source _ _ _ _ _ _ _ Hload Hd0) as (url & Hurl & ->).
  apply list_elem_of_singleton in Hurl as ->.
  apply lookup_singleton_eq.
Qed.

Lemma retrieval_run_context retriever inp env (w : W) s c docs :
  retrieval_run retriever inp env w s -> c ∈ items s ->
  c !! "context" = Some (VDocs docs) ->
  exists q w1, retriever q env w = (w1, inr docs).
Proof.
  intros Hrun Hin Hc. destruct Hrun; simpl in Hin.
  - by apply elem_of_nil in Hin.
  - apply list_elem_of_singleton in Hin as ->.
    by rewrite lookup_singleton_ne in Hc.
  - apply elem_of_cons in Hin as [->|Hin];
      [by rewrite lookup_singleton_ne in Hc |].
    apply elem_of_cons in Hin as [->|Hin].
    + rewrite lookup_singleton_eq in Hc. injection Hc as <-. eauto.
    + apply list_elem_of_fmap in Hin as (t & -> & _).
      unfold answer_chunk in Hc. by rewrite lookup_singleton_ne in Hc.
Qed.

(** C8: the loader is constructed with exactly one web page path; once the
    retriever is built, every document it returns, hence every element of
    a streamed [context] sequence and of the output documents of a
    retriever event, carries its text and a [source] metadata field equal
    to the URL of that page. *)
Theorem documents_carry_source st st' retriever :
  build_retriever st = (st', inr retriever) ->
  web_paths loader = [blog_post]
  /\ (forall query env w w' docs d,
        retriever query env w = (w', inr docs) -> d ∈ docs ->
        metadata d !! "source" = Some blog_post)
  /\ (forall combine_docs_chain inp env w c docs d,
        c ∈ items (stream (create_retrieval_chain retriever combine_docs_chain)
                     inp env w).2 ->
        c !! "context" = Some (VDocs docs) -> d ∈ docs ->
        metadata d !! "source" = Some blog_post)
  /\ (forall run tags_ query env w w' docs ev out docs' d,
        retriever query env w = (w', inr docs) ->
        ev ∈ retriever_events run tags_ query docs ->
        output (data ev) = Some out ->
        out !! "documents" = Some (VDocs docs') -> d ∈ docs' ->
        metadata d !! "source" = Some blog_post).
Proof.
  intros Hbuild. pose proof (build_retriever_source _ _ _ Hbuild) as Hsrc.
  split; [done |]. split; [done |]. split.
  - intros cdc inp env w c docs d Hin Hc Hd.
    pose proof (create_retrieval_chain_run retriever cdc inp env w) as Hrun.
    destruct (retrieval_run_context _ _ _ _ _ _ _ Hrun Hin Hc) as (q & w1 & Hret).
    by eapply Hsrc.
  - intros run tags_ query env w w' docs ev out docs' d Hret Hev Hout Hdocs Hd.
    unfold retriever_events in Hev.
    apply elem_of_cons in Hev as [->|Hev]; [done |].
    apply list_elem_of_singleton in Hev as ->.
    cbn [output data] in Hout. injection Hout as <-.
    rewrite lookup_singleton_eq in Hdocs. injection Hdocs as <-.
    by eapply Hsrc.
Qed.

(** ** Failures *)

Lemma load_loader env (w : W) :
  load loader env w =
  match scrape blog_post (parse_only loader) env w with
  | (w1, inl e) => (w1, inl e)
  | (w1, inr page) =>
      (w1, inr [ {| page_content := page;
                    metadata := {[ "source" := blog_post ]} |} ])
  end.
Proof.
  unfold load, loader. cbn [web_paths parse_only load_pages].
  rewrite ext_bind_run. by destruct (scrape _ _ env w) as [w1 [e|page]].
Qed.

Lemma build_retriever_scrape_raised st w1 e :
  scrape blog_post (parse_only loader) (environ st) (world st) = (w1, inl e) ->
  build_retriever st = (with_world w1 st, inl e).
Proof.
  intros Hscrape. unfold build_retriever.
  by rewrite bind_run, call_run, load_loader, Hscrape.
Qed.

Lemma load_loader_returned st w1 page :
  scrape blog_post (parse_only loader) (environ st) (world st) = (w1, inr page) ->
  load loader (environ st) (world st)
  = (w1, inr [ {| page_content := page;
                  metadata := {[ "source" := blog_post ]} |} ]).
Proof. intros Hscrape. by rewrite load_loader, Hscrape. Qed.

(** C7: a failure raised by a call into the library leaves the cell as the
    same exception: fetching the page, constructing a client without its
    credential, the embedding service, and a stream that raises under any
    of the consumer loops. The cell stops at the failed call, with the
    world as that one call left it and with nothing written beyond what
    the items before the failure produced. *)
Theorem failures_propagate (st : State) (e : exn) :
  (forall w1,
      scrape blog_post (parse_only loader) (environ st) (world st) = (w1, inl e) ->
      build_retriever st = (with_world w1 st, inl e)
      /\ forall llm, build_rag_chain llm st = (with_world w1 st, inl e))
  /\ (forall w1 page w2,
      scrape blog_post (parse_only loader) (environ st) (world st) = (w1, inr page) ->
      OpenAIEmbeddings (environ st) w1 = (w2, inl e) ->
      build_retriever st = (with_world w2 st, inl e))
  /\ (forall w1 page w2 embedding w3,
      scrape blog_post (parse_only loader) (environ st) (world st) = (w1, inr page) ->
      OpenAIEmbeddings (environ st) w1 = (w2, inr embedding) ->
      embed_documents embedding
        (page_content <$>
           split_documents text_splitter
             [ {| page_content := page;
                  metadata := {[ "source" := blog_post ]} |} ])
        (environ st) w2 = (w3, inl e) ->
      build_retriever st = (with_world w3 st, inl e))
  /\ (forall w1,
      ChatOpenAI (environ st) (world st) = (w1, inl e) ->
      select_llm st = (with_world w1 st, inl e))
  /\ (forall rag_chain w1 s,
      stream rag_chain question (environ st) (world st) = (w1, s) ->
      failure s = Some e ->
      stream_final_outputs rag_chain st
        = (emit ((fun c => repr_chunk c +:+ nl) <$> items s) (with_world w1 st),
           inl e)
      /\ stream_answer_key rag_chain st
        = (emit (omap selected_answer (items s)) (with_world w1 st), inl e)
      /\ stream_picked rag_chain st
        = (emit ((fun v => py_str v +:+ "|") <$> omap (picked "answer") (items s))
             (with_world w1 st), inl e))
  /\ (forall rag_chain w1 s,
      astream_events rag_chain follow_up "v1" (environ st) (world st) = (w1, s) ->
      failure s = Some e ->
      stream_retriever_events rag_chain st
        = (emit (concat (retriever_output <$> items s)) (with_world w1 st), inl e)
      /\ (Forall carries_chunk (items s) ->
          stream_contextualize_q rag_chain st
          = (emit (concat (contextualize_q_output <$> items s)) (with_world w1 st),
             inl e)))
  /\ (forall retriever combine_docs_chain q w1,
      retriever q (environ st) (world st) = (w1, inl e) ->
      stream (create_retrieval_chain retriever combine_docs_chain)
        {[ "input" := VStr q ]} (environ st) (world st)
      = (w1, yield {[ "input" := VStr q ]} (raising e))).
Proof.
  repeat apply conj.
  - intros w1 Hscrape.
    pose proof (build_retriever_scrape_raised st w1 e Hscrape) as Hbuild.
    split; [done |]. intros llm. unfold build_rag_chain.
    by rewrite bind_run, Hbuild.
  - intros w1 page w2 Hscrape Hemb. unfold build_retriever.
    rewrite bind_run, call_run, (load_loader_returned _ _ _ Hscrape).
    cbn [fst snd]. rewrite bind_run, call_run. cbn [environ world with_world].
    by rewrite Hemb.
  - intros w1 page w2 embedding w3 Hscrape Hemb Hdocs. unfold build_retriever.
    rewrite bind_run, call_run, (load_loader_returned _ _ _ Hscrape).
    cbn [fst snd]. rewrite bind_run, call_run. cbn [environ world with_world].
    rewrite Hemb. cbn [fst snd]. rewrite bind_run, call_run.
    cbn [environ world with_world]. unfold Chroma_from_documents.
    rewrite ext_bind_run. by rewrite Hdocs.
  - intros w1 Hllm. unfold select_llm. rewrite call_run. by rewrite Hllm.
  - intros rag_chain w1 s Hs He. repeat apply conj.
    + unfold stream_final_outputs.
      rewrite (for_in_run _ _ _ _ _ Hs), consume_print_chunk.
      by rewrite (outcome_failure _ _ He).
    + unfold stream_answer_key.
      rewrite (for_in_run _ _ _ _ _ Hs), consume_print_answer.
      by rewrite (outcome_failure _ _ He).
    + unfold stream_picked.
      rewrite (for_in_run _ _ _ w1 (pick_stream "answer" s))
        by (cbn [stream pick]; by rewrite Hs).
      rewrite consume_print_picked.
      by rewrite (outcome_failure (pick_stream "answer" s) e He).
  - intros rag_chain w1 s Hs He. split.
    + unfold stream_retriever_events, async_for_in.
      rewrite (for_in_run _ _ _ _ _ Hs).
      rewrite (consume_emit print_retriever retriever_output)
        by (intros ev _ st'; apply print_retriever_emit).
      by rewrite (outcome_failure _ _ He).
    + intros Hwf. rewrite Forall_forall in Hwf.
      unfold stream_contextualize_q, async_for_in.
      rewrite (for_in_run _ _ _ _ _ Hs).
      rewrite (consume_emit print_contextualize_q contextualize_q_output)
        by (intros ev Hin st'; by apply print_contextualize_q_emit, Hwf).
      by rewrite (outcome_failure _ _ He).
  - intros retriever cdc q w1 Hret. cbn [stream create_retrieval_chain].
    rewrite lookup_singleton_eq. by rewrite Hret.
Qed.

(** ** The shape of the notebook *)

(** C5, as the code has it: the notebook has exactly two asynchronous
    loops, each over an [astream_events] call, and exactly three
    synchronous loops, each over a [stream] call. *)
Theorem loops_of_the_notebook :
  length (loops_with AsyncFor) = 2
  /\ length (loops_with For) = 3
  /\ (forall c, c ∈ loops_with AsyncFor -> streaming_call c = "astream_events")
  /\ (forall c, c ∈ loops_with For -> streaming_call c = "stream")
  /\ (forall c : consumer, c ∈ consumers).
Proof.
  split; [reflexivity |]. split; [reflexivity |].
  split; [|split].
  - intros c Hc. apply list_elem_of_filter in Hc as [Hk _]. by destruct c.
  - intros c Hc. apply list_elem_of_filter in Hc as [Hk _]. by destruct c.
  - intros c. unfold consumers.
    destruct c; repeat first [apply list_elem_of_here | apply list_elem_of_further].
Qed.

(** ** The environment *)

Lemma environ_setitem_assigns (k v : string) (st : State) :
  has_nul k = false -> String.eqb k "" = false -> has_equals k = false ->
  environ_setitem k v st =
  if has_nul v
  then (st, inl (ValueError "embedded null byte"))
  else ({| environ := <[k := v]> (environ st); tty := tty st;
           stdout := stdout st; world := world st |}, inr tt).
Proof. intros Hk Hempty Heq. unfold environ_setitem. by rewrite Hk, Hempty, Heq. Qed.

(** The setup cells, outcome by outcome. *)
Lemma setup_cases (st : State) :
  setup st =
  match tty st with
  | [] => (st, inl EOFError)
  | key1 :: rest1 =>
      if has_nul key1
      then ({| environ := environ st; tty := rest1;
               stdout := stdout st; world := world st |},
            inl (ValueError "embedded null byte"))
      else
        let env1 := <[ "LANGCHAIN_TRACING_V2" := "true" ]>
                      (<[ "OPENAI_API_KEY" := key1 ]> (environ st)) in
        match rest1 with
        | [] => ({| environ := env1; tty := [];
                    stdout := stdout st; world := world st |}, inl EOFError)
        | key2 :: rest =>
            if has_nul key2
            then ({| environ := env1; tty := rest;
                     stdout := stdout st; world := world st |},
                  inl (ValueError "embedded null byte"))
            else ({| environ := <[ "LANGCHAIN_API_KEY" := key2 ]> env1;
                     tty := rest; stdout := stdout st; world := world st |},
                  inr tt)
        end
  end.
Proof.
  unfold setup, set_openai_key, set_langsmith. rewrite !bind_run.
  unfold getpass at 1. destruct (tty st) as [|key1 rest1]; [done |].
  cbn beta iota. rewrite environ_setitem_assigns by reflexivity.
  destruct (has_nul key1); [done |].
  cbn beta iota. rewrite !bind_run.
  rewrite environ_setitem_assigns by reflexivity.
  replace (has_nul "true") with false by reflexivity.
  cbn beta iota. rewrite bind_run. unfold getpass. cbn [tty environ stdout world].
  destruct rest1 as [|key2 rest]; [done |].
  cbn beta iota. rewrite environ_setitem_assigns by reflexivity.
  cbn [tty environ stdout world].
  by destruct (has_nul key2).
Qed.

Lemma setup_run (st : State) key1 key2 rest :
  tty st = key1 :: key2 :: rest ->
  has_nul key1 = false -> has_nul key2 = false ->
  setup st =
  ({| environ := <[ "LANGCHAIN_API_KEY" := key2 ]>
                   (<[ "LANGCHAIN_TRACING_V2" := "true" ]>
                      (<[ "OPENAI_API_KEY" := key1 ]> (environ st)));
      tty := rest; stdout := stdout st; world := world st |}, inr tt).
Proof. intros Htty H1 H2. by rewrite setup_cases, Htty, H1, H2. Qed.

(** C6, as the code has it: the setup cells assign exactly three
    environment variables, [OPENAI_API_KEY] and [LANGCHAIN_API_KEY] from
    what is typed at the prompt, when it has no NUL byte, and
    [LANGCHAIN_TRACING_V2] to ["true"], whatever they held before; they
    read none and leave every other variable as it was. *)
Theorem setup_assigns_environment (st : State) key1 key2 rest :
  tty st = key1 :: key2 :: rest ->
  has_nul key1 = false ->
  has_nul key2 = false ->
  (setup st).2 = inr tt
  /\ environ (setup st).1 !! "OPENAI_API_KEY" = Some key1
  /\ environ (setup st).1 !! "LANGCHAIN_TRACING_V2" = Some "true"
  /\ environ (setup st).1 !! "LANGCHAIN_API_KEY" = Some key2
  /\ (forall k, k ∉ assigned_variables ->
        environ (setup st).1 !! k = environ st !! k)
  /\ dom (environ (setup st).1) = dom (environ st) ∪ assigned_variables
  /\ size assigned_variables = 3.
Proof.
  intros Htty Hnul1 Hnul2.
  rewrite (setup_run st key1 key2 rest Htty Hnul1 Hnul2). cbn [fst snd environ].
  unfold assigned_variables.
  split; [done |].
  split; [by rewrite 2!lookup_insert_ne, lookup_insert_eq by done |].
  split; [by rewrite lookup_insert_ne, lookup_insert_eq by done |].
  split; [by rewrite lookup_insert_eq |].
  split; [|split].
  - intros k Hk. rewrite !not_elem_of_union, !not_elem_of_singleton in Hk.
    destruct Hk as [[Hk1 Hk2] Hk3]. by rewrite !lookup_insert_ne.
  - rewrite !dom_insert_L. apply set_eq. intros k.
    rewrite !elem_of_union, !elem_of_singleton. clear. tauto.
  - by vm_compute.
Qed.

(** ** Further properties of the cells *)

(** X1: the setup cells end normally exactly when two lines without a NUL
    byte are typed at the prompts. With no line, or with one good line
    only, they raise [EOFError]; a line with a NUL byte makes its
    assignment raise [ValueError]. A first line that is refused leaves the
    environment as it was; after a good first line [OPENAI_API_KEY] and
    [LANGCHAIN_TRACING_V2] are assigned even when the LangSmith cell then
    raises, and [LANGCHAIN_API_KEY] is left as it was. *)
Theorem setup_needs_two_lines (st : State) :
  ((setup st).2 = inr tt <->
     exists key1 key2 rest, tty st = key1 :: key2 :: rest
                            /\ has_nul key1 = false /\ has_nul key2 = false)
  /\ ((setup st).2 = inl EOFError <->
        tty st = [] \/ exists key1, tty st = [key1] /\ has_nul key1 = false)
  /\ ((setup st).2 = inl (ValueError "embedded null byte") <->
        (exists key1 rest, tty st = key1 :: rest /\ has_nul key1 = true)
        \/ (exists key1 key2 rest, tty st = key1 :: key2 :: rest
                                   /\ has_nul key1 = false /\ has_nul key2 = true))
  /\ (tty st = [] -> setup st = (st, inl EOFError))
  /\ (forall key1 rest, tty st = key1 :: rest -> has_nul key1 = true ->
        environ (setup st).1 = environ st)
  /\ (forall key1 rest, tty st = key1 :: rest -> has_nul key1 = false ->
        (setup st).2 <> inr tt ->
        environ (setup st).1 !! "OPENAI_API_KEY" = Some key1
        /\ environ (setup st).1 !! "LANGCHAIN_TRACING_V2" = Some "true"
        /\ environ (setup st).1 !! "LANGCHAIN_API_KEY"
           = environ st !! "LANGCHAIN_API_KEY").
Proof.
  assert (Hpartial : forall key1,
             <[ "LANGCHAIN_TRACING_V2" := "true" ]>
               (<[ "OPENAI_API_KEY" := key1 ]> (environ st)) !! "OPENAI_API_KEY"
             = Some key1
             /\ <[ "LANGCHAIN_TRACING_V2" := "true" ]>
                  (<[ "OPENAI_API_KEY" := key1 ]> (environ st))
                  !! "LANGCHAIN_TRACING_V2" = Some "true"
             /\ <[ "LANGCHAIN_TRACING_V2" := "true" ]>
                  (<[ "OPENAI_API_KEY" := key1 ]> (environ st))
                  !! "LANGCHAIN_API_KEY" = environ st !! "LANGCHAIN_API_KEY").
  { intros key1.
    split; [by rewrite lookup_insert_ne, lookup_insert_eq |].
    split; [by rewrite lookup_insert_eq |].
    by rewrite !lookup_insert_ne. }
  rewrite setup_cases.
  destruct (tty st) as [|key1 rest1] eqn:Htty.
  { cbn [fst snd].
    split; [split; [done | by intros (? & ? & ? & ? & _)] |].
    split; [split; [by left | done] |].
    split; [split; [done | by intros [(? & ? & ? & _)|(? & ? & ? & ? & _)]] |].
    split; [done |]. split; intros ? ? ?; done. }
  destruct (has_nul key1) eqn:Hnul1.
  { cbn [fst snd environ].
    split; [split; [done | intros (? & ? & ? & [= -> ->] & ? & _); congruence] |].
    split; [split; [done | intros [?|(? & [= -> _] & ?)]; [done | congruence]] |].
    split; [split; [intros _; left; eauto | done] |].
    split; [done |]. split; [done |].
    intros ? ? [= -> ->] ?. congruence. }
  cbn zeta. destruct rest1 as [|key2 rest].
  { cbn [fst snd environ].
    split; [split; [done | by intros (? & ? & ? & ? & _)] |].
    split; [split; [intros _; right; eauto | done] |].
    split; [split; [done |
      intros [(? & ? & [= -> _] & ?)|(? & ? & ? & ? & _)]; [congruence | done]] |].
    split; [done |].
    split; [intros ? ? [= -> _] ?; congruence |].
    intros ? ? [= -> _] _ _. apply Hpartial. }
  destruct (has_nul key2) eqn:Hnul2.
  { cbn [fst snd environ].
    split; [split; [done |
      intros (? & ? & ? & [= -> -> ->] & _ & ?); congruence] |].
    split; [split; [done | intros [?|(? & ? & _)]; done] |].
    split; [split; [intros _; right; by exists key1, key2, rest | done] |].
    split; [done |].
    split; [intros ? ? [= -> _] ?; congruence |].
    intros ? ? [= -> _] _ _. apply Hpartial. }
  cbn [fst snd environ].
  split; [split; [intros _; by exists key1, key2, rest | done] |].
  split; [split; [done | intros [?|(? & ? & _)]; done] |].
  split; [split; [done |
    intros [(? & ? & [= -> _] & ?)|(? & ? & ? & [= -> -> _] & _ & ?)];
      congruence] |].
  split; [done |].
  split; [intros ? ? [= -> _] ?; congruence |].
  intros ? ? _ _ Hnot. by destruct Hnot.
Qed.

(** X2: whatever is typed, and whether they end or raise, the setup cells
    write nothing to standard output, leave the outside world alone, take
    at most two lines from the terminal and change no environment variable
    other than the three they assign. *)
Theorem setup_frame (st : State) :
  stdout (setup st).1 = stdout st
  /\ world (setup st).1 = world st
  /\ (exists typed : list string,
        tty st = (typed ++ tty (setup st).1)%list /\ length typed <= 2)
  /\ (forall k, k ∉ assigned_variables ->
        environ (setup st).1 !! k = environ st !! k).
Proof.
  assert (Hother : forall (k : string) (env : gmap string string) key1 key2,
             k ∉ assigned_variables ->
             <[ "LANGCHAIN_API_KEY" := key2 ]>
               (<[ "LANGCHAIN_TRACING_V2" := "true" ]>
                  (<[ "OPENAI_API_KEY" := key1 ]> env)) !! k = env !! k
             /\ <[ "LANGCHAIN_TRACING_V2" := "true" ]>
                  (<[ "OPENAI_API_KEY" := key1 ]> env) !! k = env !! k).
  { intros k env key1 key2 Hk. unfold assigned_variables in Hk.
    rewrite !not_elem_of_union, !not_elem_of_singleton in Hk.
    destruct Hk as [[Hk1 Hk2] Hk3]. by rewrite !lookup_insert_ne. }
  rewrite setup_cases.
  destruct (tty st) as [|key1 rest1] eqn:Htty.
  { cbn [fst snd]. split; [done |]. split; [done |]. split; [|done].
    exists []. rewrite Htty. split; [done | simpl; lia]. }
  destruct (has_nul key1).
  { cbn [fst snd stdout world tty environ].
    split; [done |]. split; [done |]. split; [|done].
    exists [key1]. split; [done | simpl; lia]. }
  cbn zeta. destruct rest1 as [|key2 rest].
  { cbn [fst snd stdout world tty environ].
    split; [done |]. split; [done |]. split.
    - exists [key1]. split; [done | simpl; lia].
    - intros k Hk. apply (Hother k (environ st) key1 ""), Hk. }
  destruct (has_nul key2); cbn [fst snd stdout world tty environ].
  - split; [done |]. split; [done |]. split.
    + exists [key1; key2]. split; [done | simpl; lia].
    + intros k Hk. apply (Hother k (environ st) key1 ""), Hk.
  - split; [done |]. split; [done |]. split.
    + exists [key1; key2]. split; [done | simpl; lia].
    + intros k Hk. apply (Hother k (environ st) key1 key2), Hk.
Qed.

Lemma only_writes_ret {A} (a : A) : only_writes (ret a : io A).
Proof. intros st. exists []. by rewrite emit_nil. Qed.

Lemma only_writes_raise {A} (e : exn) : only_writes (raise e : io A).
Proof. intros st. exists []. by rewrite emit_nil. Qed.

Lemma only_writes_print (s end_ : string) :
  only_writes (print s end_ : io unit).
Proof. intros st. by exists [s +:+ end_]. Qed.

Lemma only_writes_bind {A B} (m : io A) (k : A -> io B) :
  only_writes m -> (forall a, only_writes (k a)) -> only_writes (m ≫= k).
Proof.
  intros Hm Hk st. rewrite bind_run.
  destruct (Hm st) as [out1 H1]. destruct (m st) as [st1 [e|a]]; simpl in H1.
  - by exists out1.
  - destruct (Hk a st1) as [out2 H2]. exists (out1 ++ out2)%list.
    by rewrite H2, H1, emit_emit.
Qed.

Lemma only_writes_consume {A} (s : Stream A) (body : A -> io unit) :
  (forall x, only_writes (body x)) -> only_writes (consume s body).
Proof.
  intros Hbody. unfold consume. apply only_writes_bind.
  - induction (items s) as [|x xs IH]; [apply only_writes_ret |].
    cbn [for_each]. by apply only_writes_bind.
  - intros _. destruct (failure s); [apply only_writes_raise | apply only_writes_ret].
Qed.

Lemma only_writes_print_answer (c : Chunk) : only_writes (print_answer c).
Proof.
  intros st. rewrite print_answer_emit. by eexists.
Qed.

Lemma only_writes_print_contextualize_q (ev : StreamEvent) :
  only_writes (print_contextualize_q ev : io unit).
Proof.
  unfold print_contextualize_q. destruct (_ && _); [|apply only_writes_ret].
  apply only_writes_bind.
  - unfold getitem_chunk. destruct (chunk (data ev));
      [apply only_writes_ret | apply only_writes_raise].
  - intros c. apply only_writes_print.
Qed.

Lemma only_writes_print_retriever (ev : StreamEvent) :
  only_writes (print_retriever ev).
Proof. intros st. rewrite print_retriever_emit. by eexists. Qed.

Lemma for_in_only_writes {A} (g : gen A) (body : A -> io unit) (st : State) :
  (forall x, only_writes (body x)) ->
  exists out w, (for_in g body st).1 = with_world w (emit out st).
Proof.
  intros Hbody. rewrite for_in_consume.
  destruct (only_writes_consume (g (environ st) (world st)).2 body Hbody
              (with_world (g (environ st) (world st)).1 st)) as [out Hout].
  exists out, (g (environ st) (world st)).1. by rewrite Hout.
Qed.

(** X3: none of the five consumer loops, on any chain and any stream or
    event sequence, also one that makes the loop raise, touches the
    environment or the terminal input; on standard output it only adds to
    what was there. *)
Theorem consumers_only_write (rag_chain : Runnable Chunk)
    (conversational_rag_chain : EventRunnable) (c : consumer) (st : State) :
  environ (run_consumer rag_chain conversational_rag_chain c st).1 = environ st
  /\ tty (run_consumer rag_chain conversational_rag_chain c st).1 = tty st
  /\ stdout st `prefix_of`
       stdout (run_consumer rag_chain conversational_rag_chain c st).1.
Proof.
  assert (Hloop : exists out w,
             (run_consumer rag_chain conversational_rag_chain c st).1
             = with_world w (emit out st)).
  { destruct c; cbn [run_consumer];
      unfold stream_final_outputs, stream_answer_key, stream_picked,
        stream_contextualize_q, stream_retriever_events, async_for_in;
      apply for_in_only_writes.
    - intros x. apply only_writes_print.
    - apply only_writes_print_answer.
    - intros x. apply only_writes_print.
    - apply only_writes_print_contextualize_q.
    - apply only_writes_print_retriever. }
  destruct Hloop as (out & w & ->). simpl.
  split; [done |]. split; [done |]. by exists out.
Qed.

Lemma for_each_app {A} (body : A -> io unit) (xs ys : list A) (st : State) :
  for_each body (xs ++ ys) st =
  match for_each body xs st with
  | (st', inl e) => (st', inl e)
  | (st', inr _) => for_each body ys st'
  end.
Proof.
  revert st. induction xs as [|x xs IH]; intros st; [done |].
  cbn [app for_each]. rewrite !bind_run.
  destruct (body x st) as [st1 [e|[]]]; [done |]. apply IH.
Qed.

(** X4: in the loop of cell [7], a selected event whose data has no
    [chunk] key stops the loop with [KeyError]: what the events before it
    produced stays written, the events after it are not looked at, and the
    exception the stream itself would have ended with is never reached. *)
Theorem contextualize_q_missing_chunk (pre post : list StreamEvent)
    (ev : StreamEvent) (fail : option exn) (st : State) :
  Forall carries_chunk pre ->
  selects_contextualize_q ev ->
  chunk (data ev) = None ->
  consume {| items := pre ++ ev :: post; failure := fail |}
    print_contextualize_q st
  = (emit (concat (contextualize_q_output <$> pre)) st, inl (KeyError "chunk")).
Proof.
  intros Hpre Hsel Hchunk. rewrite Forall_forall in Hpre.
  unfold consume. cbn [items failure]. rewrite bind_run, for_each_app.
  rewrite (for_each_emit print_contextualize_q contextualize_q_output)
    by (intros x Hx st'; by apply print_contextualize_q_emit, Hpre).
  cbn [for_each]. rewrite bind_run.
  by rewrite (print_contextualize_q_KeyError ev _ Hsel Hchunk).
Qed.

Lemma answer_text_cons (c : Chunk) (cs : list Chunk) :
  answer_text (c :: cs)
  = match c !! "answer" with
    | Some (VStr t) => t +:+ answer_text cs
    | _ => answer_text cs
    end.
Proof.
  unfold answer_text. cbn [omap list_omap].
  destruct (c !! "answer") as [[|t|ds|ms]|]; reflexivity.
Qed.

Lemma selected_answers_text (cs : list Chunk) :
  text_answers cs ->
  text (fragment <$> omap selected_answer cs) = answer_text cs.
Proof.
  induction cs as [|c cs IH]; intros Htext; [done |].
  apply text_answers_cons in Htext as [Hc Hcs].
  rewrite answer_text_cons, <- (IH Hcs). cbn [omap list_omap].
  destruct (c !! "answer") as [v|] eqn:Hans.
  - destruct (Hc v eq_refl) as [t ->].
    assert (Hsel : selected_answer c
                   = if negb (String.eqb t "") then Some (t +:+ "|") else None)
      by (unfold selected_answer; by rewrite Hans).
    rewrite Hsel. destruct (String.eqb_spec t "") as [->|Hne]; cbn [negb].
    + done.
    + csimpl. by rewrite fragment_sep.
  - assert (Hsel : selected_answer c = None)
      by (unfold selected_answer; by rewrite Hans).
    by rewrite Hsel.
Qed.

(** X5: over a stream whose [answer] values are text, what the loop of
    cell [4] writes, with the separator taken off every entry, is in
    concatenation the whole text of the answer: skipping the empty
    fragments loses nothing, and the chunks without an answer add nothing,
    also when the stream ends with an exception. *)
Theorem answer_filter_keeps_text (s : Stream Chunk) (st : State) :
  text_answers (items s) ->
  text (fragment <$> written (consume s print_answer) st)
  = answer_text (items s).
Proof.
  intros Htext. rewrite (written_emit _ _ _ _ (consume_print_answer s st)).
  by apply selected_answers_text.
Qed.

(** X6: the loop of cell [5] writes one entry for every item of the stream
    it is given, the empty ones too, and never raises by itself; taking the
    separator off the entries gives the items back, one for one. *)
Theorem picked_loop_round_trip (s : Stream value) (st : State) :
  fragment <$> written (consume s print_picked) st = py_str <$> items s
  /\ length (written (consume s print_picked) st) = length (items s)
  /\ (consume s print_picked st).2 = outcome s.
Proof.
  rewrite (written_emit _ _ _ _ (consume_print_picked s st)).
  rewrite consume_print_picked. cbn [snd].
  split; [|split; [by rewrite length_fmap | done]].
  rewrite <- list_fmap_compose. apply list_fmap_ext.
  intros i v _. simpl. apply fragment_sep.
Qed.





Lemma print_contextualize_q_outcome (ev : StreamEvent) (st : State) :
  (printable ev /\ (print_contextualize_q ev st).2 = inr tt)
  \/ (~ printable ev /\ print_contextualize_q ev st = (st, inl (KeyError "chunk"))).
Proof.
  destruct (decide (selects_contextualize_q ev)) as [Hsel|Hsel].
  - destruct (chunk (data ev)) as [c|] eqn:Hc.
    + left. split; [intros _; by rewrite Hc |].
      unfold print_contextualize_q.
      rewrite (proj2 (contextualize_q_test ev) Hsel).
      unfold getitem_chunk. by rewrite Hc.
    + right. split.
      * intros Hp. destruct (Hp Hsel) as [c Hc']. congruence.
      * by apply print_contextualize_q_KeyError.
  - left. split; [by intros ? |].
    unfold print_contextualize_q. destruct (_ && _) eqn:Htest; [|done].
    by apply contextualize_q_test in Htest.
Qed.

Lemma for_each_contextualize_q_outcome (evs : list StreamEvent) (st : State) :
  (Forall printable evs /\ (for_each print_contextualize_q evs st).2 = inr tt)
  \/ (~ Forall printable evs
      /\ (for_each print_contextualize_q evs st).2 = inl (KeyError "chunk")).
Proof.
  revert st. induction evs as [|ev evs IH]; intros st.
  - left. by split.
  - cbn [for_each]. rewrite bind_run.
    destruct (print_contextualize_q_outcome ev st) as [[Hp Hev]|[Hp Hev]].
    + destruct (print_contextualize_q ev st) as [st1 [e|[]]]; [done |].
      destruct (IH st1) as [[Hall Hrest]|[Hall Hrest]].
      * left. split; [by constructor | done].
      * right. split; [|done]. intros Hcons. apply Hall.
        by apply Forall_cons in Hcons as [_ ?].
    + right. rewrite Hev. split; [|done]. intros Hcons. apply Hp.
      by apply Forall_cons in Hcons as [? _].
Qed.

(** X10: on any event sequence, the loop of cell [7] ends without an
    exception exactly when the stream does and every event the filter
    selects has its [chunk]; the only exception the loop raises by itself
    is [KeyError] for that key, any other is the one of the stream. *)
Theorem contextualize_q_loop_outcome (s : Stream StreamEvent) (st : State) :
  ((consume s print_contextualize_q st).2 = inr tt
   <-> failure s = None /\ Forall printable (items s))
  /\ (forall e, (consume s print_contextualize_q st).2 = inl e ->
        e = KeyError "chunk" \/ failure s = Some e)
  /\ (~ Forall printable (items s) ->
      (consume s print_contextualize_q st).2 = inl (KeyError "chunk")).
Proof.
  unfold consume. rewrite bind_run.
  destruct (for_each_contextualize_q_outcome (items s) st)
    as [[Hall Hrun]|[Hall Hrun]];
    destruct (for_each print_contextualize_q (items s) st) as [st1 [e1|[]]];
    simpl in Hrun; try done.
  - destruct (failure s) as [e|]; simpl.
    + split; [split; [done | by intros [? _]] |].
      split; [|done]. intros e' [= <-]. by right.
    + split; [done |]. split; [done | done].
  - injection Hrun as ->. simpl.
    split; [split; [done | by intros [_ ?]] |].
    split; [|done]. intros e' [= <-]. by left.
Qed.

(** X11: an exception that leaves the cell building the chain is one a
    library call raised: the page fetch, the constructor of the embedding
    client, or the embedding of the pieces, each tried only after the ones
    before it returned. The cell raises none of its own. *)
Theorem build_raises_only_library (llm : ChatModel) (st : State) (e : exn) :
  (build_rag_chain llm st).2 = inl e ->
  (exists w1,
      scrape blog_post (parse_only loader) (environ st) (world st) = (w1, inl e))
  \/ (exists w1 page w2,
      scrape blog_post (parse_only loader) (environ st) (world st) = (w1, inr page)
      /\ OpenAIEmbeddings (environ st) w1 = (w2, inl e))
  \/ (exists w1 page w2 embedding w3,
      scrape blog_post (parse_only loader) (environ st) (world st) = (w1, inr page)
      /\ OpenAIEmbeddings (environ st) w1 = (w2, inr embedding)
      /\ embed_documents embedding
           (page_content <$>
              split_documents text_splitter
                [ {| page_content := page;
                     metadata := {[ "source" := blog_post ]} |} ])
           (environ st) w2 = (w3, inl e)).
Proof.
  unfold build_rag_chain, build_retriever.
  rewrite !bind_run, call_run, load_loader.
  destruct (scrape _ _ _ _) as [w1 [e1|page]] eqn:Hscrape; cbn [fst snd].
  - intros [= <-]. left. by exists w1.
  - rewrite bind_run, call_run. cbn [environ world with_world].
    destruct (OpenAIEmbeddings _ _) as [w2 [e2|embedding]] eqn:Hemb;
      cbn [fst snd].
    + intros [= <-]. right; left. by exists w1, page, w2.
    + rewrite bind_run, call_run. cbn [environ world with_world].
      unfold Chroma_from_documents at 1 2. rewrite !ext_bind_run.
      destruct (embed_documents embedding _ _ _) as [w3 [e3|vs]] eqn:Hdocs;
        cbn [fst snd].
      * intros [= <-]. right; right. by exists w1, page, w2, embedding, w3.
      * done.
Qed.

End Properties.

(** * The properties at the sample run *)

Lemma sample_text_answers : text_answers (items sample_stream).
Proof.
  intros c v Hin Hc. simpl in Hin.
  repeat (apply elem_of_cons in Hin as [->|Hin]);
    try (by apply elem_of_nil in Hin);
    try (by rewrite lookup_singleton_ne in Hc);
    unfold answer_chunk in Hc; rewrite lookup_singleton_eq in Hc;
    injection Hc as <-; eauto.
Defined.

Lemma sample_events_carry_chunk : Forall carries_chunk (items sample_events).
Proof.
  unfold sample_events, retriever_events. cbn [items app].
  repeat apply Forall_cons_2; try apply Forall_nil_2;
    intros Hev; solve [eexists; reflexivity | discriminate Hev].
Defined.

Lemma sample_stream_in_chain :
  ({[ "input" := VStr "What is Task Decomposition?" ]} : Chunk)
    ∈ items (stream sample_rag_chain question ∅ tt).2.
Proof. apply list_elem_of_here. Defined.

Lemma sample_build_retriever :
  build_retriever (setup sample_state).1
  = ((setup sample_state).1,
     inr (as_retriever {| embedding_function := sample_embeddings;
                          entries := [(sample_document, 38)] |})).
Proof. reflexivity. Defined.

Lemma answer_filter_selects_witness :
  written (print_answer (answer_chunk "Task")) sample_state = ["Task|"].
Proof.
  destruct (answer_filter_selects sample_stream sample_state)
    as (_ & _ & _ & Hstr & _).
  apply (Hstr (answer_chunk "Task") sample_state "Task");
    [reflexivity | discriminate].
Defined.

Lemma answer_filter_matches_pick_witness :
  text_answers (items sample_stream)
  /\ text (fragment <$> written (consume sample_stream print_answer) sample_state)
     = text (fragment <$>
               written (consume (pick_stream "answer" sample_stream) print_picked)
                 sample_state)
  /\ written (consume sample_stream print_answer) sample_state
     = ["Task|"; " decomposition|"]
  /\ written (consume (pick_stream "answer" sample_stream) print_picked)
       sample_state
     = ["|"; "Task|"; " decomposition|"; "|"].
Proof.
  split; [exact sample_text_answers |].
  split; [| by vm_compute].
  apply (proj1 (answer_filter_matches_pick sample_stream sample_state)
           sample_text_answers).
Defined.

Lemma answer_filter_skips_empty_witness :
  "Task|" ∈ written (consume sample_stream print_answer) sample_state
  /\ fragment "Task|" <> "".
Proof.
  assert (Hin : "Task|" ∈ written (consume sample_stream print_answer) sample_state)
    by (vm_compute; apply list_elem_of_here).
  split; [exact Hin |].
  apply (proj1 (answer_filter_skips_empty sample_stream sample_state) _ Hin).
Defined.



Lemma stream_keys_in_order_witness :
  dom <$> items (stream sample_rag_chain question ∅ tt).2
  = [ {[ "input" ]}; {[ "context" ]}; {[ "answer" ]}; {[ "answer" ]};
      {[ "answer" ]}; {[ "answer" ]} ]
  /\ dom (answer_chunk "Task") = {[ key_at 3 ]}.
Proof.
  split; [by vm_compute |].
  destruct (stream_keys_in_order sample_retriever
              (create_stuff_documents_chain sample_llm prompt)
              question ∅ tt) as (Hkeys & _).
  apply (Hkeys 3 (answer_chunk "Task")). reflexivity.
Defined.

Lemma stream_chunk_shape_witness :
  ({[ "input" := VStr "What is Task Decomposition?" ]} : Chunk)
    ∈ items (stream sample_rag_chain question ∅ tt).2
  /\ dom ({[ "input" := VStr "What is Task Decomposition?" ]} : Chunk)
     ⊆ {[ "input"; "context"; "answer" ]}.
Proof.
  split; [exact sample_stream_in_chain |].
  apply (stream_chunk_shape sample_retriever
           (create_stuff_documents_chain sample_llm prompt)
           question ∅ tt _ sample_stream_in_chain).
Defined.

Lemma setup_assigns_environment_witness :
  tty sample_state = ["sk-sample"; "ls-sample"]
  /\ has_nul "sk-sample" = false
  /\ has_nul "ls-sample" = false
  /\ environ (setup sample_state).1 !! "OPENAI_API_KEY" = Some "sk-sample".
Proof.
  split; [reflexivity |]. split; [reflexivity |]. split; [reflexivity |].
  apply (setup_assigns_environment sample_state "sk-sample" "ls-sample" []);
    reflexivity.
Defined.

Lemma loops_of_the_notebook_witness :
  ContextualizeQ ∈ loops_with AsyncFor
  /\ streaming_call ContextualizeQ = "astream_events".
Proof.
  assert (Hin : ContextualizeQ ∈ loops_with AsyncFor)
    by (vm_compute; apply list_elem_of_here).
  split; [exact Hin |].
  destruct loops_of_the_notebook as (_ & _ & Hasync & _).
  exact (Hasync ContextualizeQ Hin).
Defined.

Lemma documents_carry_source_witness :
  build_retriever (setup sample_state).1
  = ((setup sample_state).1,
     inr (as_retriever {| embedding_function := sample_embeddings;
                          entries := [(sample_document, 38)] |}))
  /\ web_paths loader = [blog_post]
  /\ metadata sample_document !! "source" = Some blog_post.
Proof.
  split; [exact sample_build_retriever |].
  destruct (documents_carry_source _ _ _ sample_build_retriever)
    as (Hpaths & Hsource & _).
  split; [exact Hpaths |].
  apply (Hsource "What is Task Decomposition?" ∅ tt tt [sample_document]);
    [reflexivity | apply list_elem_of_here].
Defined.

Lemma failures_propagate_witness :
  OpenAIEmbeddings (environ sample_state) tt = (tt, inl missing_credential)
  /\ build_retriever sample_state
     = (with_world tt sample_state, inl missing_credential).
Proof.
  split; [reflexivity |].
  destruct (failures_propagate sample_state missing_credential)
    as (_ & Hcredential & _).
  apply (Hcredential tt sample_page tt); reflexivity.
Defined.

Lemma bare_event_selected : selects_contextualize_q bare_event.
Proof. split; [reflexivity | apply list_elem_of_here]. Defined.

Lemma setup_needs_two_lines_witness :
  tty one_line_state = ["sk-sample"]
  /\ has_nul "sk-sample" = false
  /\ (setup one_line_state).2 = inl EOFError
  /\ environ (setup one_line_state).1 !! "LANGCHAIN_TRACING_V2" = Some "true".
Proof.
  destruct (setup_needs_two_lines one_line_state)
    as (_ & Heof & _ & _ & _ & Hone).
  split; [reflexivity |]. split; [reflexivity |].
  split; [apply Heof; right; by exists "sk-sample" |].
  apply (Hone "sk-sample" []); [reflexivity | reflexivity | discriminate].
Defined.

Lemma setup_frame_witness :
  ("PATH" ∉ assigned_variables)
  /\ environ (setup one_line_state).1 !! "PATH" = environ one_line_state !! "PATH".
Proof.
  assert (Hk : "PATH" ∉ assigned_variables) by (by vm_compute).
  split; [exact Hk |].
  destruct (setup_frame one_line_state) as (_ & _ & _ & Hother).
  exact (Hother "PATH" Hk).
Defined.

Lemma contextualize_q_missing_chunk_witness :
  Forall carries_chunk (items sample_events)
  /\ selects_contextualize_q bare_event
  /\ chunk (data bare_event) = None
  /\ consume {| items := items sample_events ++ bare_event :: items sample_events;
                failure := Some missing_credential |}
       print_contextualize_q sample_state
     = (emit ["What|"] sample_state, inl (KeyError "chunk")).
Proof.
  split; [exact sample_events_carry_chunk |].
  split; [exact bare_event_selected |].
  split; [reflexivity |].
  apply (contextualize_q_missing_chunk (items sample_events)
           (items sample_events) bare_event (Some missing_credential)
           sample_state sample_events_carry_chunk bare_event_selected eq_refl).
Defined.

Lemma answer_filter_keeps_text_witness :
  text_answers (items sample_stream)
  /\ text (fragment <$> written (consume sample_stream print_answer) sample_state)
     = "Task decomposition".
Proof.
  split; [exact sample_text_answers |].
  apply (answer_filter_keeps_text sample_stream sample_state sample_text_answers).
Defined.


Lemma contextualize_q_loop_outcome_witness :
  ~ Forall printable [bare_event]
  /\ (consume {| items := [bare_event]; failure := None |}
        print_contextualize_q sample_state).2 = inl (KeyError "chunk").
Proof.
  assert (Hbare : ~ Forall printable [bare_event]).
  { intros Hall. apply Forall_cons in Hall as [Hp _].
    destruct (Hp bare_event_selected) as [c Hc]. discriminate Hc. }
  split; [exact Hbare |].
  destruct (contextualize_q_loop_outcome
              {| items := [bare_event]; failure := None |} sample_state)
    as (_ & _ & Hraise).
  exact (Hraise Hbare).
Defined.

Lemma build_raises_only_library_witness :
  (build_rag_chain sample_llm sample_state).2 = inl missing_credential
  /\ ((exists w1,
         scrape blog_post (parse_only loader) (environ sample_state)
           (world sample_state) = (w1, inl missing_credential))
      \/ (exists w1 page w2,
         scrape blog_post (parse_only loader) (environ sample_state)
           (world sample_state) = (w1, inr page)
         /\ OpenAIEmbeddings (environ sample_state) w1
            = (w2, inl missing_credential))
      \/ (exists w1 page w2 embedding w3,
         scrape blog_post (parse_only loader) (environ sample_state)
           (world sample_state) = (w1, inr page)
         /\ OpenAIEmbeddings (environ sample_state) w1 = (w2, inr embedding)
         /\ embed_documents embedding
              (page_content <$>
                 split_documents text_splitter
                   [ {| page_content := page;
                        metadata := {[ "source" := blog_post ]} |} ])
              (environ sample_state) w2 = (w3, inl missing_credential))).
Proof.
  assert (Hfail : (build_rag_chain sample_llm sample_state).2
                  = inl missing_credential) by reflexivity.
  split; [exact Hfail |].
  exact (build_raises_only_library sample_llm sample_state missing_credential
           Hfail).
Defined.

(** * Where the notebook differs from its description *)


(** C5 as stated fails: the notebook does not have exactly one asynchronous
    and exactly one synchronous loop over a streaming call. *)
Lemma one_loop_of_each_kind_refuted :
  ~ (length (loops_with AsyncFor) = 1 /\ length (loops_with For) = 1).
Proof. intros [Hasync _]. discriminate Hasync. Qed.

(** C6 as stated fails: started from an empty environment, where there is
    nothing to read, the setup cells run to their end and leave three
    variables defined; no two names cover what they touch. *)
Lemma two_variables_read_refuted :
  environ sample_state = ∅
  /\ (setup sample_state).2 = inr tt
  /\ size (dom (environ (setup sample_state).1)) = 3
  /\ ~ (exists k1 k2 : string,
          forall k, k <> k1 -> k <> k2 ->
            environ (setup sample_state).1 !! k = environ sample_state !! k).
Proof.
  split; [reflexivity |]. split; [reflexivity |]. split; [by vm_compute |].
  intros (k1 & k2 & H).
  assert (HA : "OPENAI_API_KEY" <> k1 -> "OPENAI_API_KEY" <> k2 -> False)
    by (intros N1 N2; discriminate (H _ N1 N2)).
  assert (HB : "LANGCHAIN_TRACING_V2" <> k1 -> "LANGCHAIN_TRACING_V2" <> k2 -> False)
    by (intros N1 N2; discriminate (H _ N1 N2)).
  assert (HC : "LANGCHAIN_API_KEY" <> k1 -> "LANGCHAIN_API_KEY" <> k2 -> False)
    by (intros N1 N2; discriminate (H _ N1 N2)).
  clear H.
  destruct (decide ("OPENAI_API_KEY" = k1)) as [<-|NA1].
  - destruct (decide ("LANGCHAIN_TRACING_V2" = k2)) as [<-|NB2].
    + by apply HC.
    + by apply HB.
  - destruct (decide ("OPENAI_API_KEY" = k2)) as [<-|NA2].
    + destruct (decide ("LANGCHAIN_TRACING_V2" = k1)) as [<-|NB1].
      * by apply HC.
      * by apply HB.
    + by apply HA.
Qed.
